(** * cgate-sdk: the request transport layer, embedded and verified

    The development follows [src/http.ts] (class [HttpClient]), the error
    classes of [src/types.ts] and the constructor of [CGateClient] in
    [src/client.ts].

    Conventions of the embedding.
    - A JavaScript string is a Rocq [string]; each [ascii] is one UTF-16
      code unit below 256, so the model covers the strings made of Latin-1
      characters and is exact on them.
    - A JavaScript number is an integer [Z]; the non-integral doubles and
      [NaN] are outside the model.
    - A promise is modelled by the way it settles ([settled]); an async
      function threads a clock and a trace of the platform calls it makes. *)

From Stdlib Require Import ZArith List String Ascii Bool Lia DecimalString.
Import ListNotations.

Set Warnings "-register-all".

Local Open Scope string_scope.
Local Open Scope list_scope.
Local Open Scope Z_scope.

(* ================================================================== *)
(** ** JavaScript values *)

Module JS.

(** JSON documents, as [JSON.parse] returns them and [JSON.stringify]
    takes them.  An object is the list of its own properties, in
    property order, with distinct keys. *)
Inductive json : Type :=
| JNull
| JBool (b : bool)
| JNum (n : Z)
| JStr (s : string)
| JArr (items : list json)
| JObj (props : list (string * json)).

(** A value that may be [undefined]. *)
Definition value := option json.
Definition undefined : value := None.

(** [ToBoolean]. *)
Definition truthy (v : value) : bool :=
  match v with
  | None => false
  | Some JNull => false
  | Some (JBool b) => b
  | Some (JNum n) => negb (n =? 0)
  | Some (JStr s) => negb (s =? "")%string
  | Some (JArr _) => true
  | Some (JObj _) => true
  end.

(** [typeof v === 'object'] (which holds of [null] too). *)
Definition typeof_object (v : value) : bool :=
  match v with
  | Some JNull | Some (JArr _) | Some (JObj _) => true
  | _ => false
  end.

(** [typeof v === 'string']. *)
Definition typeof_string (v : value) : bool :=
  match v with Some (JStr _) => true | _ => false end.

(** [v !== null]. *)
Definition not_null (v : value) : bool :=
  match v with Some JNull => false | _ => true end.

Fixpoint assoc (k : string) (props : list (string * json)) : value :=
  match props with
  | [] => None
  | (k', v) :: rest => if (k' =? k)%string then Some v else assoc k rest
  end.

(** Property read [v.k] for the property names the client reads
    ([error], [message], [type]); none of them is defined on arrays or
    on primitives. *)
Definition get (v : value) (k : string) : value :=
  match v with
  | Some (JObj props) => assoc k props
  | _ => None
  end.

(** [a || b] on values. *)
Definition or_else (a b : value) : value := if truthy a then a else b.

(** [String(n)] for an integer. *)
Definition string_of_Z (n : Z) : string := NilZero.string_of_int (Z.to_int n).

(** [JSON.stringify] on these documents (integers print in decimal, as
    they do below [10^21]). *)
Definition hex4 (n : nat) : string :=
  let digit (d : nat) : ascii :=
    if (d <? 10)%nat then ascii_of_nat (48 + d) else ascii_of_nat (87 + d) in
  String "0" (String "0" (String (digit (n / 16)%nat)
                                 (String (digit (n mod 16)%nat) ""))).

Definition quote_char (c : ascii) : string :=
  let n := nat_of_ascii c in
  if (n =? 34)%nat then String "\" (String c "")
  else if (n =? 92)%nat then "\\"
  else if (n =? 8)%nat then "\b"
  else if (n =? 12)%nat then "\f"
  else if (n =? 10)%nat then "\n"
  else if (n =? 13)%nat then "\r"
  else if (n =? 9)%nat then "\t"
  else if (n <? 32)%nat then ("\u" ++ hex4 n)%string
  else String c "".

Definition double_quote : string := String (ascii_of_nat 34) "".

Definition quote (s : string) : string :=
  (double_quote ++ String.concat "" (map quote_char (list_ascii_of_string s))
   ++ double_quote)%string.

Fixpoint stringify (j : json) : string :=
  match j with
  | JNull => "null"
  | JBool true => "true"
  | JBool false => "false"
  | JNum n => string_of_Z n
  | JStr s => quote s
  | JArr items => ("[" ++ String.concat "," (map stringify items) ++ "]")%string
  | JObj props =>
      ("{" ++ String.concat ","
                (map (fun kv => match kv with
                                | (k, v) => (quote k ++ ":" ++ stringify v)%string
                                end) props)
       ++ "}")%string
  end.

(** Whether an object has an own property of that name. *)
Definition has_own (k : string) (props : list (string * json)) : bool :=
  match assoc k props with Some _ => true | None => false end.


(** [ToString(v)], the conversion that [String(v)], [new Error(v)] and
    [Array.prototype.join] apply; [None] when it throws a [TypeError].
    - A string is itself; [null], a boolean and a safe integer print as
      they do in [stringify].
    - An array converts by [Array.prototype.toString], which is
      [join(',')]: its elements are converted in turn, [null] to the
      empty string.
    - An object converts by [OrdinaryToPrimitive]: the method [toString]
      is looked up first.  On a parsed document without an own property
      [toString] this is [Object.prototype.toString], which answers
      [[object Object]].  An own property [toString] of a parsed document
      is never callable and hides the inherited method; [valueOf] is then
      tried, and neither an own, not callable [valueOf] nor the inherited
      one, which answers the object itself, gives a primitive: the
      conversion throws a [TypeError]. *)
Fixpoint ToString (v : json) : option string :=
  match v with
  | JNull => Some "null"
  | JBool true => Some "true"
  | JBool false => Some "false"
  | JNum n => Some (string_of_Z n)
  | JStr s => Some s
  | JArr items =>
      option_map (String.concat ",")
        ((fix elements (l : list json) : option (list string) :=
            match l with
            | [] => Some []
            | x :: rest =>
                match match x with JNull => Some "" | _ => ToString x end,
                      elements rest with
                | Some s, Some ss => Some (s :: ss)
                | _, _ => None
                end
            end) items)
  | JObj props =>
      if has_own "toString" props then None else Some "[object Object]"
  end.

End JS.
Import JS.

(* ================================================================== *)
(** ** src/types.ts: the error classes *)

Module Types.

(** What can be thrown: the instances of the two classes, with their
    fields, and every other exception (a [TypeError] of the HTTP
    primitive or of a conversion, the [DOMException] of an aborted call, a
    [SyntaxError] of [response.json()], an [Error] of the caller), which
    is a [PlatformError] with its [name].  [CGateAPIError] extends
    [CGateError], which extends [Error]; the [message] of an instance is
    the string that the [Error] constructor made of its argument. *)
Inductive error : Type :=
| CGateError (message : string) (statusCode : option Z) (response : value)
| CGateAPIError (message : string) (statusCode : Z) (errorType : value)
                (response : value)
| PlatformError (name : string) (message : string).

(** [e instanceof CGateAPIError]. *)
Definition instanceof_CGateAPIError (e : error) : bool :=
  match e with CGateAPIError _ _ _ _ => true | _ => false end.

(** [e instanceof CGateError]. *)
Definition instanceof_CGateError (e : error) : bool :=
  match e with PlatformError _ _ => false | _ => true end.

(** [e.name]. *)
Definition name_of (e : error) : string :=
  match e with
  | CGateError _ _ _ => "CGateError"
  | CGateAPIError _ _ _ _ => "CGateAPIError"
  | PlatformError n _ => n
  end.

(** [e.message], [e.statusCode], [e.errorType] and [e.response]. *)
Definition message_of (e : error) : json :=
  match e with
  | CGateError m _ _ => JStr m
  | CGateAPIError m _ _ _ => JStr m
  | PlatformError _ m => JStr m
  end.

Definition statusCode_of (e : error) : option Z :=
  match e with
  | CGateError _ c _ => c
  | CGateAPIError _ c _ _ => Some c
  | PlatformError _ _ => None
  end.

Definition errorType_of (e : error) : value :=
  match e with
  | CGateAPIError _ _ t _ => t
  | _ => undefined
  end.

Definition response_of (e : error) : value :=
  match e with
  | CGateError _ _ r => r
  | CGateAPIError _ _ _ r => r
  | PlatformError _ _ => undefined
  end.

(** The reason of a signal aborted by [controller.abort()], without an
    argument: a [DOMException] named [AbortError]. *)
Definition AbortError : error :=
  PlatformError "AbortError" "This operation was aborted".

(** The [TypeError] of a conversion to a string that fails. *)
Definition Cannot_convert : error :=
  PlatformError "TypeError" "Cannot convert object to primitive value".

(** [new CGateAPIError(message, statusCode, errorType, response)] for a
    [message] that is any value: the constructor hands it to
    [super(message, statusCode, response)], which hands it to
    [super(message)], the constructor of [Error]; that one stores
    [ToString(message)], or throws when the conversion does, before
    anything of the instance is set.  The result is what the [new]
    expression gives or throws. *)
Definition new_CGateAPIError (message : json) (statusCode : Z)
    (errorType response : value) : error :=
  match ToString message with
  | Some m => CGateAPIError m statusCode errorType response
  | None => Cannot_convert
  end.

(** How a promise settles. *)
Inductive settled (A : Type) : Type :=
| Fulfilled (a : A)
| Rejected (e : error).
Arguments Fulfilled {A} a.
Arguments Rejected {A} e.

End Types.
Import Types.

(* ================================================================== *)
(** ** Strings: the [String.prototype] methods the client uses *)

Module Str.

Definition slash : ascii := "/"%char.
Definition newline : ascii := "010"%char.

(** [s.split(sep)] for a separator of one character. *)
Fixpoint split (sep : ascii) (s : string) : list string :=
  match s with
  | EmptyString => [""]
  | String c rest =>
      if Ascii.eqb c sep then "" :: split sep rest
      else match split sep rest with
           | [] => [String c ""]
           | h :: t => String c h :: t
           end
  end.

(** [parts.join(sep)]. *)
Fixpoint join (sep : string) (parts : list string) : string :=
  match parts with
  | [] => ""
  | [p] => p
  | p :: rest => (p ++ sep ++ join sep rest)%string
  end.

(** [s.startsWith(p)]. *)
Definition startsWith (p s : string) : bool := String.prefix p s.

(** [s.slice(n)] for [0 <= n]. *)
Fixpoint slice (n : nat) (s : string) : string :=
  match n, s with
  | O, _ => s
  | S _, EmptyString => ""
  | S n', String _ rest => slice n' rest
  end.

Fixpoint rev_onto (s acc : string) : string :=
  match s with
  | EmptyString => acc
  | String c rest => rev_onto rest (String c acc)
  end.

Definition rev (s : string) : string := rev_onto s "".

(** The code units below 256 that [trim] removes: TAB, LF, VT, FF, CR,
    SPACE and NO-BREAK SPACE. *)
Definition is_whitespace (c : ascii) : bool :=
  let n := nat_of_ascii c in
  ((9 <=? n) && (n <=? 13))%nat || (n =? 32)%nat || (n =? 160)%nat.

Fixpoint trimStart (s : string) : string :=
  match s with
  | EmptyString => ""
  | String c rest => if is_whitespace c then trimStart rest else s
  end.

Definition trimEnd (s : string) : string := rev (trimStart (rev s)).

(** [s.trim()]. *)
Definition trim (s : string) : string := trimEnd (trimStart s).

(** [s.replace(/\/$/, '')]: one trailing slash is removed. *)
Definition strip_trailing_slash (s : string) : string :=
  match rev s with
  | String c rest => if Ascii.eqb c slash then rev rest else s
  | EmptyString => s
  end.

End Str.

(* ================================================================== *)
(** ** The platform: [URL], timers, abort signals, the HTTP primitive *)

Module Platform.

(** *** [URL] and [URLSearchParams]

    A parsed URL of scheme [http] or [https]: its origin
    ([scheme://host]), its path as a list of segments and the list behind
    [searchParams].  The parser is modelled on the inputs the client's
    paths are made of: segments of ASCII letters, digits and [-._~], none
    of them [.] or [..], and hosts of lower-case letters and dots.  On
    these the URL Standard neither escapes nor normalises anything; on
    any other input the model answers [None]. *)
Record URL : Type := mkURL {
  origin : string;
  pathname : list string;
  searchParams : list (string * string)
}.

Definition is_alnum (c : ascii) : bool :=
  let n := nat_of_ascii c in
  (((48 <=? n) && (n <=? 57)) || ((65 <=? n) && (n <=? 90))
   || ((97 <=? n) && (n <=? 122)))%nat.

Definition is_lower (c : ascii) : bool :=
  let n := nat_of_ascii c in ((97 <=? n) && (n <=? 122))%nat.

Fixpoint all_chars (p : ascii -> bool) (s : string) : bool :=
  match s with
  | EmptyString => true
  | String c rest => p c && all_chars p rest
  end.

Definition plain_char (c : ascii) : bool :=
  is_alnum c || Ascii.eqb c "-" || Ascii.eqb c "." || Ascii.eqb c "_"
  || Ascii.eqb c "~".

Definition plain_segment (s : string) : bool :=
  all_chars plain_char s && negb (s =? ".")%string && negb (s =? "..")%string.

Definition plain_host (h : string) : bool :=
  match h with
  | EmptyString => false
  | String c _ =>
      is_lower c && all_chars (fun c => is_lower c || Ascii.eqb c ".") h
  end.

(** [new URL(s)] for an absolute [s] of the modelled form.  A URL without
    a path has the path of one empty segment (it prints as [/]). *)
Definition parse_absolute (s : string) : option URL :=
  let parse_rest (scheme rest : string) : option URL :=
    match Str.split Str.slash rest with
    | [] => None
    | host :: segments =>
        if plain_host host && forallb plain_segment segments then
          Some (mkURL (scheme ++ host)%string
                      (match segments with [] => [""] | _ => segments end)
                      [])
        else None
    end in
  if Str.startsWith "https://" s then parse_rest "https://" (Str.slice 8 s)
  else if Str.startsWith "http://" s then parse_rest "http://" (Str.slice 7 s)
  else None.

(** The URL parser's "shorten a path": the last segment goes. *)
Definition shorten (path : list string) : list string := removelast path.

(** [new URL(input, base)] for a relative [input].
    - The empty input is the base itself.
    - An input that starts with one slash replaces the whole path of the
      base (two slashes would start a host and are not modelled).
    - Any other input replaces the last segment of the base's path. *)
Definition URL_new (input base : string) : option URL :=
  match parse_absolute base with
  | None => None
  | Some b =>
      match input with
      | EmptyString => Some b
      | String c rest =>
          if Ascii.eqb c Str.slash then
            let segments := Str.split Str.slash rest in
            if Str.startsWith "/" rest then None
            else if forallb plain_segment segments
            then Some (mkURL (origin b) segments [])
            else None
          else
            let segments := Str.split Str.slash input in
            if forallb plain_segment segments
            then Some (mkURL (origin b) (shorten (pathname b) ++ segments) [])
            else None
      end
  end.

(** [url.searchParams.append(name, value)]. *)
Definition searchParams_append (u : URL) (name value : string) : URL :=
  mkURL (origin u) (pathname u) (searchParams u ++ [(name, value)]).

(** The UTF-8 bytes of a code unit below 256. *)
Definition utf8 (c : ascii) : list ascii :=
  let n := nat_of_ascii c in
  if (n <? 128)%nat then [c]
  else [ascii_of_nat (192 + n / 64); ascii_of_nat (128 + n mod 64)].

Definition hex_digit (n : nat) : ascii :=
  if (n <? 10)%nat then ascii_of_nat (48 + n) else ascii_of_nat (55 + n).

(** The [application/x-www-form-urlencoded] serialisation of one byte. *)
Definition urlencode_byte (b : ascii) : string :=
  if is_alnum b || Ascii.eqb b "*" || Ascii.eqb b "-" || Ascii.eqb b "."
     || Ascii.eqb b "_"
  then String b ""
  else if Ascii.eqb b " " then "+"
  else let n := nat_of_ascii b in
       String "%" (String (hex_digit (n / 16)) (String (hex_digit (n mod 16)) "")).

Fixpoint urlencode (s : string) : string :=
  match s with
  | EmptyString => ""
  | String c rest =>
      fold_right (fun b acc => (urlencode_byte b ++ acc)%string)
                 (urlencode rest) (utf8 c)
  end.

Definition serialize_params (params : list (string * string)) : string :=
  Str.join "&"
    (map (fun kv => (urlencode (fst kv) ++ "=" ++ urlencode (snd kv))%string)
         params).

(** [url.toString()]. *)
Definition URL_toString (u : URL) : string :=
  (origin u ++ "/" ++ Str.join "/" (pathname u)
   ++ match searchParams u with
      | [] => ""
      | params => "?" ++ serialize_params params
      end)%string.

(** *** Responses and the HTTP primitive *)

(** The body of a response as its reader delivers it: the text each
    [reader.read()] decodes to, then either the end of the body or a failed
    read. *)
Record ReadableStream : Type := mkStream {
  chunks : list string;
  failure : option error
}.

(** A [Response]: [json] is how [response.json()] settles, [body] is
    [response.body] ([None] for [null]). *)
Record Response : Type := mkResponse {
  status : Z;
  statusText : string;
  json_ : settled json;
  body : option ReadableStream
}.

(** [response.ok]. *)
Definition ok (r : Response) : bool := (200 <=? status r) && (status r <=? 299).

(** An [AbortSignal], by the call of [abort(reason)] on its controller:
    the time on the clock at which it is made and the reason, which is
    [signal.reason] from then on ([None]: [abort] is never called).  The
    reason of [abort()] without an argument is [AbortError]; the model
    covers the reasons that are exceptions. *)
Record AbortSignal : Type := mkSignal { aborted : option (Z * error) }.

(** The signal of a controller on which [abort()] is called at [t]. *)
Definition aborted_at (t : Z) : AbortSignal := mkSignal (Some (t, AbortError)).

(** The second argument of the HTTP primitive. *)
Record RequestInit : Type := mkInit {
  init_method : string;
  init_headers : list (string * string);
  init_body : option string;
  init_signal : option AbortSignal
}.

(** What one invocation of the HTTP primitive does when nothing aborts
    it: it settles after some milliseconds, or it never does. *)
Inductive behaviour : Type :=
| Settles (after : Z) (how : settled Response)
| Hangs.

(** An awaited promise: settled at a time, or pending for ever. *)
Inductive completion (A : Type) : Type :=
| At (t : Z) (s : settled A)
| Never.
Arguments At {A} t s.
Arguments Never {A}.

(** [fetch(url, { signal })] started at [now]: a signal that is already
    aborted rejects the call at once, one aborted before the call settles
    rejects it at that time, both with the signal's reason. *)
Definition fetch (b : behaviour) (now : Z) (signal : option AbortSignal)
  : completion Response :=
  match signal with
  | Some {| aborted := Some (ta, reason) |} =>
      if ta <=? now then At now (Rejected reason)
      else match b with
           | Settles d s => if now + d <? ta then At (now + d) s
                            else At ta (Rejected reason)
           | Hangs => At ta (Rejected reason)
           end
  | _ =>
      match b with
      | Settles d s => At (now + d) s
      | Hangs => Never
      end
  end.

(** *** The event loop seen from one async call

    An async function runs against a [world]: the clock in milliseconds,
    the platform calls made so far with their times, the number of timers
    created and the number of invocations of the HTTP primitive. *)
Inductive event : Type :=
| SetTimeout (id : nat) (delay : Z)
| ClearTimeout (id : nat)
| Fetch (url : string) (init : RequestInit)
| Sleep (ms : Z)
| GetReader
| Read
| ReleaseLock
| Yield (v : json)
| Warn (data : string).

Record world : Type := mkWorld {
  now : Z;
  trace : list (Z * event);
  timers : nat;
  calls : nat
}.

Definition world0 : world := mkWorld 0 [] 0 0.

(** The result of running an async function: it returned, it threw, or
    it is pending for ever. *)
Inductive outcome (A : Type) : Type :=
| Return (a : A)
| Throw (e : error)
| Pending.
Arguments Return {A} a.
Arguments Throw {A} e.
Arguments Pending {A}.

Definition M (A : Type) : Type := world -> outcome A * world.

Definition ret {A} (a : A) : M A := fun w => (Return a, w).

Definition throw {A} (e : error) : M A := fun w => (Throw e, w).

Definition bind {A B} (m : M A) (k : A -> M B) : M B :=
  fun w => match m w with
           | (Return a, w') => k a w'
           | (Throw e, w') => (Throw e, w')
           | (Pending, w') => (Pending, w')
           end.

(** [try { m } catch (e) { handler e }]. *)
Definition try_catch {A} (m : M A) (handler : error -> M A) : M A :=
  fun w => match m w with
           | (Throw e, w') => handler e w'
           | r => r
           end.

(** [try { m } finally { cleanup }] for a cleanup that cannot throw. *)
Definition try_finally {A} (m : M A) (cleanup : M unit) : M A :=
  fun w => match m w with
           | (Pending, w') => (Pending, w')
           | (r, w') => (r, snd (cleanup w'))
           end.

Definition emit (e : event) : M unit :=
  fun w => (Return tt,
            mkWorld (now w) (trace w ++ [(now w, e)]) (timers w) (calls w)).

(** [await p] for a promise that settles as [c]. *)
Definition await {A} (c : completion A) : M A :=
  fun w => match c with
           | At t (Fulfilled a) =>
               (Return a, mkWorld t (trace w) (timers w) (calls w))
           | At t (Rejected e) =>
               (Throw e, mkWorld t (trace w) (timers w) (calls w))
           | Never => (Pending, w)
           end.

(** A timer: its id and the time at which it fires unless cleared. *)
Record timer : Type := mkTimer { timer_id : nat; fires_at : Z }.

(** [setTimeout(callback, delay)]. *)
Definition setTimeout (delay : Z) : M timer :=
  fun w => (Return (mkTimer (timers w) (now w + delay)),
            mkWorld (now w) (trace w ++ [(now w, SetTimeout (timers w) delay)])
                    (S (timers w)) (calls w)).

(** [clearTimeout(id)]. *)
Definition clearTimeout (t : timer) : M unit := emit (ClearTimeout (timer_id t)).

(** The signal of the [AbortController] that the callback of timer [t]
    aborts, by [controller.abort()].  In [request] the timer is cleared
    only after the call it guards has settled, so during that call the
    signal aborts when the timer fires. *)
Definition controller_signal (t : timer) : AbortSignal :=
  aborted_at (fires_at t).

(** [await new Promise(resolve => setTimeout(resolve, ms))]. *)
Definition sleep_for (ms : Z) : M unit :=
  fun w => (Return tt,
            mkWorld (now w + ms) (trace w ++ [(now w, Sleep ms)])
                    (timers w) (calls w)).

End Platform.

(* ================================================================== *)
(** ** src/http.ts: class [HttpClient] *)

Module Http.
Import Platform.

Notation "x <- m ;; k" := (bind m (fun x => k))
  (at level 61, m at next level, right associativity).
Notation "m ;;; k" := (bind m (fun _ => k))
  (at level 61, right associativity).

Record HttpClient : Type := mkClient {
  baseURL : string;
  apiKey : string;
  timeout : Z;
  maxRetries : Z
}.

(** The constructor.  [fetchImpl] tells whether an implementation was
    passed, [globalThis_fetch] whether the runtime has one; the client
    keeps [fetchImpl || globalThis.fetch] and throws when there is none. *)
Definition new_HttpClient (baseURL apiKey : string) (timeout maxRetries : Z)
    (fetchImpl globalThis_fetch : bool) : error + HttpClient :=
  if fetchImpl || globalThis_fetch then
    inr (mkClient (Str.strip_trailing_slash baseURL) apiKey timeout maxRetries)
  else
    inl (CGateError
           "Fetch is not available. Please provide a fetch implementation."
           None undefined).

(** A value of a query record: [string | number | boolean | undefined]. *)
Inductive qvalue : Type :=
| QString (s : string)
| QNumber (n : Z)
| QBoolean (b : bool)
| QUndefined.

(** [String(value)]. *)
Definition String_of (v : qvalue) : string :=
  match v with
  | QString s => s
  | QNumber n => string_of_Z n
  | QBoolean true => "true"
  | QBoolean false => "false"
  | QUndefined => "undefined"
  end.

(** The [options] argument of [request] and [stream]; [query] lists the
    record's entries in the order of [Object.entries]. *)
Record options : Type := mkOptions {
  opt_body : value;
  opt_query : option (list (string * qvalue));
  opt_headers : option (list (string * string));
  opt_signal : option AbortSignal
}.

Definition no_options : options := mkOptions undefined None None None.

Section Client.

Variable this : HttpClient.

(** The environment of a call: what the [n]-th invocation of the HTTP
    primitive does, and the platform's [JSON.stringify] and [JSON.parse]
    ([None] for a [SyntaxError]). *)
Variable net : nat -> behaviour.
Variable JSON_stringify : json -> string.
Variable JSON_parse : string -> option json.

(** [buildURL]; [None] when [new URL] throws, and for the inputs that
    the model of [URL] does not cover. *)
Definition buildURL (path : string) (query : option (list (string * qvalue)))
  : option string :=
  match URL_new (if Str.startsWith "/" path then Str.slice 1 path else path)
                (baseURL this) with
  | None => None
  | Some url =>
      let url :=
        match query with
        | Some entries =>
            fold_left
              (fun url entry =>
                 match snd entry with
                 | QUndefined => url
                 | value => searchParams_append url (fst entry) (String_of value)
                 end)
              entries url
        | None => url
        end in
      Some (URL_toString url)
  end.

(** [{ ...o, k: v }] on a record of headers: an existing key keeps its
    place and takes the new value, a new key goes last. *)
Fixpoint set_header (k v : string) (o : list (string * string))
  : list (string * string) :=
  match o with
  | [] => [(k, v)]
  | (k', v') :: rest =>
      if (k' =? k)%string then (k, v) :: rest
      else (k', v') :: set_header k v rest
  end.

(** [buildHeaders]. *)
Definition buildHeaders (customHeaders : option (list (string * string)))
  : list (string * string) :=
  fold_left (fun o kv => set_header (fst kv) (snd kv) o)
    (match customHeaders with Some h => h | None => [] end)
    [("Content-Type", "application/json");
     ("Authorization", ("Bearer " ++ apiKey this)%string);
     ("User-Agent", "@cognipeer/cgate-sdk/1.0.0")].

(** [handleErrorResponse] always throws; this is the exception: what
    the [new CGateAPIError(...)] of its last line gives or throws. *)
Definition handleErrorResponse (response : Response) : error :=
  let errorMessage :=
    JStr ("HTTP " ++ string_of_Z (status response) ++ ": "
          ++ statusText response)%string in
  match json_ response with
  | Rejected _ =>
      new_CGateAPIError errorMessage (status response) undefined undefined
  | Fulfilled data =>
      let responseData := Some data in
      if typeof_object responseData && not_null responseData then
        let error_ := get responseData "error" in
        match error_ with
        | Some (JStr s) =>
            new_CGateAPIError (JStr s) (status response) undefined responseData
        | _ =>
            if truthy error_ && typeof_object error_ then
              new_CGateAPIError
                (match or_else (get error_ "message") (Some errorMessage) with
                 | Some m => m
                 | None => errorMessage
                 end)
                (status response) (get error_ "type") responseData
            else
              new_CGateAPIError errorMessage (status response) undefined
                                responseData
        end
      else
        new_CGateAPIError errorMessage (status response) undefined responseData
  end.

(** [this.fetchImpl(url, init)]: the next invocation of the primitive. *)
Definition fetchImpl (url : string) (init : RequestInit) : M Response :=
  fun w =>
    await (fetch (net (calls w)) (now w) (init_signal init))
          (mkWorld (now w) (trace w ++ [(now w, Fetch url init)])
                   (timers w) (S (calls w))).

(** [options.body ? JSON.stringify(options.body) : undefined]. *)
Definition request_body (o : options) : option string :=
  if truthy (opt_body o) then option_map JSON_stringify (opt_body o)
  else None.

(** [await response.json()]. *)
Definition response_json (response : Response) : M json :=
  fun w => await (At (now w) (json_ response)) w.

(** [throw lastError || new CGateError('Request failed after retries')]. *)
Definition throw_last (lastError : option error) : M json :=
  throw (match lastError with
         | Some e => e
         | None => CGateError "Request failed after retries" None undefined
         end).

(** [options.signal || controller.signal], for the controller that the
    timer [timeoutId] aborts. *)
Definition attempt_signal (o : options) (timeoutId : timer) : AbortSignal :=
  match opt_signal o with
  | Some s => s
  | None => controller_signal timeoutId
  end.

(** How the invocation of the HTTP primitive settles when an attempt
    starts in [w]: the timer is armed at [now w] with the next timer id,
    and the invocation is the next one. *)
Definition primitive_outcome (o : options) (w : world) : completion Response :=
  fetch (net (calls w)) (now w)
        (Some (attempt_signal o
                 (mkTimer (timers w) (now w + timeout this)))).

(** Whether the invocation of the primitive made in [w] is still pending
    at time [t] when nothing aborts it. *)
Definition pending_at (t : Z) (w : world) : bool :=
  match net (calls w) with
  | Hangs => true
  | Settles d _ => t <=? now w + d
  end.

(** The [try] block of [request]: one attempt. *)
Definition attempt_once (method url : string)
    (headers : list (string * string)) (o : options) : M json :=
  timeoutId <- setTimeout (timeout this) ;;
  response <-
    fetchImpl url
      (mkInit method headers (request_body o)
              (Some (attempt_signal o timeoutId))) ;;
  clearTimeout timeoutId ;;;
  (if negb (ok response) then throw (handleErrorResponse response)
   else ret tt) ;;;
  data <- response_json response ;;
  ret data.

(** The condition under which the [catch] block rethrows. *)
Definition rethrows (attempt : Z) (error : error) : bool :=
  instanceof_CGateAPIError error
  || (name_of error =? "AbortError")%string
  || (attempt =? maxRetries this).

(** The [for] loop of [request], from index [attempt] on.  [fuel] bounds
    the iterations left; [request] gives it [maxRetries + 1]. *)
Fixpoint request_loop (fuel : nat) (method url : string)
    (headers : list (string * string)) (o : options)
    (attempt : Z) (lastError : option error) : M json :=
  match fuel with
  | O => throw_last lastError
  | S fuel' =>
      if attempt <=? maxRetries this then
        try_catch
          (attempt_once method url headers o)
          (fun error =>
             if rethrows attempt error then throw error
             else
               sleep_for (2 ^ attempt * 1000) ;;;
               request_loop fuel' method url headers o (attempt + 1)
                            (Some error))
      else throw_last lastError
  end.

(** The exception of [new URL]. *)
Definition invalid_URL : error := PlatformError "TypeError" "Invalid URL".

(** The world after the backoff wait of attempt [attempt]. *)
Definition after_backoff (attempt : Z) (w : world) : world :=
  mkWorld (now w + 2 ^ attempt * 1000)
          (trace w ++ [(now w, Sleep (2 ^ attempt * 1000))])
          (timers w) (calls w).

(** [request]. *)
Definition request (method path : string) (o : options) : M json :=
  match buildURL path (opt_query o) with
  | None => throw invalid_URL
  | Some url =>
      request_loop (Z.to_nat (maxRetries this + 1)) method url
                   (buildHeaders (opt_headers o)) o 0 None
  end.

(** The [for (const line of lines)] loop of [stream]; it answers [true]
    when the generator returned at the sentinel. *)
Fixpoint process_lines (lines : list string) : M bool :=
  match lines with
  | [] => ret false
  | line :: rest =>
      let trimmed := Str.trim line in
      if Str.startsWith "data: " trimmed then
        let data := Str.slice 6 trimmed in
        if (data =? "[DONE]")%string then ret true
        else
          match JSON_parse data with
          | Some v => emit (Yield v)
          | None => emit (Warn data)
          end ;;;
          process_lines rest
      else process_lines rest
  end.

(** The [while (true)] loop of [stream] over the reads left. *)
Fixpoint read_loop (reads : list string) (failure : option error)
    (buffer : string) : M unit :=
  match reads with
  | [] =>
      emit Read ;;;
      match failure with
      | Some e => throw e
      | None => ret tt
      end
  | value :: rest =>
      emit Read ;;;
      let buffer := (buffer ++ value)%string in
      let lines := Str.split Str.newline buffer in
      let buffer := last lines "" in
      let lines := removelast lines in
      returned <- process_lines lines ;;
      if returned : bool then ret tt else read_loop rest failure buffer
  end.

(** [stream], run by a consumer that takes every value: the values it
    yields are the [Yield] events of the trace. *)
Definition stream (method path : string) (o : options) : M unit :=
  match buildURL path (opt_query o) with
  | None => throw invalid_URL
  | Some url =>
      response <-
        fetchImpl url
          (mkInit method (buildHeaders (opt_headers o)) (request_body o)
                  (opt_signal o)) ;;
      (if negb (ok response) then throw (handleErrorResponse response)
       else ret tt) ;;;
      match body response with
      | None => throw (CGateError "Response body is null" None undefined)
      | Some b =>
          emit GetReader ;;;
          try_finally (read_loop (chunks b) (failure b) "") (emit ReleaseLock)
      end
  end.

End Client.

End Http.

(* ================================================================== *)
(** ** src/client.ts: class [CGateClient] *)

Module Client.

(** An optional property of an options object: missing ([undefined]),
    [null], or given. *)
Inductive optional (A : Type) : Type :=
| Undefined
| Null
| Given (a : A).
Arguments Undefined {A}.
Arguments Null {A}.
Arguments Given {A} a.

Record CGateClientOptions : Type := mkClientOptions {
  apiKey : string;
  baseURL : optional string;
  timeout : optional Z;
  maxRetries : optional Z;
  fetch : bool
}.

Definition DEFAULT_BASE_URL : string := "https://api.cognipeer.com/api/client/v1".
Definition DEFAULT_TIMEOUT : Z := 60000.
Definition DEFAULT_MAX_RETRIES : Z := 3.

(** [s || d] for an optional string. *)
Definition string_or (s : optional string) (d : string) : string :=
  match s with
  | Given v => if (v =? "")%string then d else v
  | _ => d
  end.

(** [n || d] for an optional number. *)
Definition number_or (n : optional Z) (d : Z) : Z :=
  match n with
  | Given v => if v =? 0 then d else v
  | _ => d
  end.

(** [n ?? d]. *)
Definition nullish (n : optional Z) (d : Z) : Z :=
  match n with
  | Given v => v
  | _ => d
  end.

(** The client; the resources only hold the same [http]. *)
Record CGateClient : Type := mkCGateClient { http : Http.HttpClient }.

(** The constructor; [globalThis_fetch] tells whether the runtime has a
    [fetch]. *)
Definition new_CGateClient (options : CGateClientOptions)
    (globalThis_fetch : bool) : error + CGateClient :=
  if (apiKey options =? "")%string then
    inl (PlatformError "Error" "API key is required")
  else
    let baseURL := string_or (baseURL options) DEFAULT_BASE_URL in
    let timeout := number_or (timeout options) DEFAULT_TIMEOUT in
    let maxRetries := nullish (maxRetries options) DEFAULT_MAX_RETRIES in
    match Http.new_HttpClient baseURL (apiKey options) timeout maxRetries
                              (fetch options) globalThis_fetch with
    | inl e => inl e
    | inr h => inr (mkCGateClient h)
    end.

(** [getBaseURL]. *)
Definition getBaseURL (c : CGateClient) : string := Http.baseURL (http c).

End Client.

(* ================================================================== *)
(** ** Observations on traces, and the decoder's reference semantics *)

Module Obs.
Import Platform.

Definition is_fetch (e : Z * event) : bool :=
  match snd e with Fetch _ _ => true | _ => false end.

(** The invocations of the HTTP primitive: the attempts. *)
Definition attempts (tr : list (Z * event)) : nat :=
  List.length (filter is_fetch tr).

(** The backoff waits, in milliseconds, in order. *)
Fixpoint sleeps (tr : list (Z * event)) : list Z :=
  match tr with
  | [] => []
  | (_, Sleep ms) :: rest => ms :: sleeps rest
  | _ :: rest => sleeps rest
  end.

Definition total (l : list Z) : Z := fold_right Z.add 0 l.

(** The request bodies handed to the HTTP primitive, in order. *)
Fixpoint bodies (tr : list (Z * event)) : list (option string) :=
  match tr with
  | [] => []
  | (_, Fetch _ init) :: rest => init_body init :: bodies rest
  | _ :: rest => bodies rest
  end.

(** The URLs handed to the HTTP primitive, in order. *)
Fixpoint urls (tr : list (Z * event)) : list string :=
  match tr with
  | [] => []
  | (_, Fetch url _) :: rest => url :: urls rest
  | _ :: rest => urls rest
  end.

(** The trace without its timer events: calls and waits, in order. *)
Fixpoint calls_and_waits (tr : list (Z * event)) : list (Z * event) :=
  match tr with
  | [] => []
  | (t, Fetch url init) :: rest => (t, Fetch url init) :: calls_and_waits rest
  | (t, Sleep ms) :: rest => (t, Sleep ms) :: calls_and_waits rest
  | _ :: rest => calls_and_waits rest
  end.

(** The waits before retries [i+1], [i+2], ..., [i+n]: [2^i] seconds,
    [2^(i+1)] seconds, ... *)
Fixpoint backoffs (i : Z) (n : nat) : list Z :=
  match n with
  | O => []
  | S n' => 2 ^ i * 1000 :: backoffs (i + 1) n'
  end.

(** A sequence of calls and waits is sequential with exponential backoff
    from attempt [i] on: it is a call, or a call, then a wait of [2^i]
    seconds that starts no earlier than the call, then, no earlier than
    the end of the wait, such a sequence from attempt [i+1] on. *)
Fixpoint follows_backoff (i : Z) (tr : list (Z * event)) : bool :=
  match tr with
  | (t, Fetch _ _) :: rest =>
      match rest with
      | [] => true
      | (ts, Sleep ms) :: rest' =>
          (t <=? ts) && (ms =? 2 ^ i * 1000)
          && match rest' with
             | (t', _) :: _ => ts + ms <=? t'
             | [] => false
             end
          && follows_backoff (i + 1) rest'
      | _ => false
      end
  | _ => false
  end.

(** An error of the transport kind: any exception that is not an API
    error (the exceptions of the HTTP primitive reach the caller as they
    are). *)
Definition is_TransportError (e : error) : bool :=
  negb (instanceof_CGateAPIError e).

(** A transport error that is not an abort. *)
Definition retryable (e : error) : bool :=
  is_TransportError e && negb (name_of e =? "AbortError")%string.

(** The timers armed and the timers cleared. *)
Fixpoint armed (tr : list (Z * event)) : list nat :=
  match tr with
  | [] => []
  | (_, SetTimeout id _) :: rest => id :: armed rest
  | _ :: rest => armed rest
  end.

Fixpoint cleared (tr : list (Z * event)) : list nat :=
  match tr with
  | [] => []
  | (_, ClearTimeout id) :: rest => id :: cleared rest
  | _ :: rest => cleared rest
  end.

(** The values a stream yielded, in order, and the number of reads. *)
Fixpoint yields (tr : list (Z * event)) : list json :=
  match tr with
  | [] => []
  | (_, Yield v) :: rest => v :: yields rest
  | _ :: rest => yields rest
  end.

Fixpoint reads (tr : list (Z * event)) : nat :=
  match tr with
  | [] => O
  | (_, Read) :: rest => S (reads rest)
  | _ :: rest => reads rest
  end.

Fixpoint released (tr : list (Z * event)) : nat :=
  match tr with
  | [] => O
  | (_, ReleaseLock) :: rest => S (released rest)
  | _ :: rest => released rest
  end.

Section Decoder.

Variable JSON_parse : string -> option json.

(** The complete lines of a text: those that a newline ends. *)
Definition complete_lines (text : string) : list string :=
  removelast (Str.split Str.newline text).

(** The payload of a [data: ] line. *)
Definition payload (line : string) : option string :=
  let trimmed := Str.trim line in
  if Str.startsWith "data: " trimmed then Some (Str.slice 6 trimmed) else None.

Definition is_sentinel (line : string) : bool :=
  match payload line with
  | Some data => (data =? "[DONE]")%string
  | None => false
  end.

(** The lines before the first sentinel line. *)
Fixpoint before_sentinel (lines : list string) : list string :=
  match lines with
  | [] => []
  | line :: rest => if is_sentinel line then [] else line :: before_sentinel rest
  end.

(** The values of the lines whose payload parses, in order. *)
Fixpoint parsed_payloads (lines : list string) : list json :=
  match lines with
  | [] => []
  | line :: rest =>
      match payload line with
      | Some data =>
          match JSON_parse data with
          | Some v => v :: parsed_payloads rest
          | None => parsed_payloads rest
          end
      | None => parsed_payloads rest
      end
  end.

(** What the specification asks a body to decode to. *)
Definition decoded (text : string) : list json :=
  parsed_payloads (before_sentinel (complete_lines text)).

(** Whether some complete line of the text is the sentinel. *)
Definition has_sentinel (text : string) : bool :=
  existsb is_sentinel (complete_lines text).

End Decoder.

(** The generic message of an error response. *)
Definition generic_message (r : Response) : json :=
  JStr ("HTTP " ++ string_of_Z (status r) ++ ": " ++ statusText r)%string.

(** The text of a list of reads. *)
Definition text_of (reads : list string) : string :=
  fold_right String.append "" reads.

End Obs.

(* ================================================================== *)
(** ** Sample inputs *)

Module Sample.
Import Platform.

(** Options with an explicit timeout and an explicit maxRetries of 0. *)
Definition options_zero : Client.CGateClientOptions :=
  Client.mkClientOptions "test-key" Client.Undefined (Client.Given 0)
                         (Client.Given 0) true.


(** A 429 whose body is [{"error": {"message": "slow down", "type":
    "rate_limit"}}]. *)
Definition response_rate_limit : Response :=
  mkResponse 429 "Too Many Requests"
    (Fulfilled (JObj [("error", JObj [("message", JStr "slow down");
                                      ("type", JStr "rate_limit")])])) None.

Definition fetch_failed : error := PlatformError "TypeError" "fetch failed".

(** An HTTP primitive that rejects every call after 5 ms. *)
Definition net_down (n : nat) : behaviour := Settles 5 (Rejected fetch_failed).

(** An HTTP primitive that never settles. *)
Definition net_hangs (n : nat) : behaviour := Hangs.

(** An HTTP primitive that answers every call with a 429 after 20 ms. *)
Definition net_rate_limited (n : nat) : behaviour :=
  Settles 20 (Fulfilled response_rate_limit).

(** An HTTP primitive that answers every call with [{}] after 20 ms. *)
Definition net_ok (n : nat) : behaviour :=
  Settles 20 (Fulfilled (mkResponse 200 "OK" (Fulfilled (JObj [])) None)).

(** Clients on a base URL without a path, with 3 retries and with none. *)
Definition client3 : Http.HttpClient :=
  Http.mkClient "https://x.example.com" "test-key" 60000 3.

Definition client0 : Http.HttpClient :=
  Http.mkClient "https://x.example.com" "test-key" 60000 0.







(** Options whose body is [false]. *)
Definition options_body_false : Http.options :=
  Http.mkOptions (Some (JBool false)) None None None.

(** Options whose body is [{"n": 1}]. *)
Definition options_body_object : Http.options :=
  Http.mkOptions (Some (JObj [("n", JNum 1)])) None None None.

(** The text [{"a":1}], and a parser that knows this document only. *)
Definition doc_a : string :=
  ("{" ++ double_quote ++ "a" ++ double_quote ++ ":1}")%string.

Definition parse_sample (s : string) : option json :=
  if (s =? doc_a)%string then Some (JObj [("a", JNum 1)]) else None.

Definition nl : string := String Str.newline "".

(** A body in four reads: a frame split over two reads, an empty line, a
    frame that is not JSON, the sentinel split over two reads, and text
    after the sentinel. *)
Definition sse_chunks : list string :=
  [ ("data: {" ++ double_quote ++ "a")%string;
    (double_quote ++ ":1}" ++ nl ++ nl ++ "data: not-json" ++ nl ++ "da")%string;
    ("ta: [DONE]" ++ nl ++ "data: " ++ doc_a ++ nl)%string;
    ("data: " ++ doc_a ++ nl)%string ].

Definition response_stream : Response :=
  mkResponse 200 "OK"
    (Rejected (PlatformError "SyntaxError" "Unexpected token d in JSON"))
    (Some (mkStream sse_chunks None)).

(** An HTTP primitive that answers every call with that body after 20 ms. *)
Definition net_stream (n : nat) : behaviour :=
  Settles 20 (Fulfilled response_stream).

End Sample.
Import Sample.

(* ================================================================== *)
(** ** src/resources: the callers of [HttpClient] *)

Module Resources.
Import Platform.

(** What the promise of [chat.completions.create] resolves to: the
    response of the single-shot call, or the async generator object that
    the call of [stream] returns.  Calling an async generator function
    runs nothing of its body: the generator object is the body of
    [stream] not yet started, which runs when the consumer asks for the
    first value. *)
Inductive chat_result : Type :=
| Completion (response : json)
| Chunks (generator : M unit).

Section Resource.

Variable http : Http.HttpClient.
Variable net : nat -> behaviour.
Variable JSON_stringify : json -> string.
Variable JSON_parse : string -> option json.

(** The options [{ body }]. *)
Definition with_body (body : json) : Http.options :=
  Http.mkOptions (Some body) None None None.

(** The options [{ query }], for a query that may be [undefined]. *)
Definition with_query (query : option (list (string * Http.qvalue)))
  : Http.options :=
  Http.mkOptions undefined query None None.

(** chat.ts, [ChatCompletionsResource.create].  With a truthy
    [params.stream] it returns the generator object at once; otherwise it
    returns what [request] resolves to. *)
Definition ChatCompletions_create (params : list (string * json))
  : M chat_result :=
  if truthy (assoc "stream" params) then
    ret (Chunks (Http.stream http net JSON_stringify JSON_parse "POST"
                   "/api/client/v1/chat/completions"
                   (with_body (JObj params))))
  else
    bind (Http.request http net JSON_stringify "POST"
            "/api/client/v1/chat/completions" (with_body (JObj params)))
         (fun data => ret (Completion data)).

(** embeddings.ts, [EmbeddingsResource.create]. *)
Definition Embeddings_create (params : list (string * json)) : M json :=
  Http.request http net JSON_stringify "POST" "/api/client/v1/embeddings"
               (with_body (JObj params)).

(** tracing.ts, [TracingResource.ingest]. *)
Definition Tracing_ingest (data : list (string * json)) : M json :=
  Http.request http net JSON_stringify "POST"
               "/api/client/v1/tracing/sessions" (with_body (JObj data)).

(** files.ts, [FilesResource.list]. *)
Definition Files_list (bucketKey : string)
    (query : option (list (string * Http.qvalue))) : M json :=
  Http.request http net JSON_stringify "GET"
    ("/api/client/v1/files/buckets/" ++ bucketKey ++ "/objects")%string
    (with_query query).

(** files.ts, [FilesResource.upload]. *)
Definition Files_upload (bucketKey : string) (data : list (string * json))
  : M json :=
  Http.request http net JSON_stringify "POST"
    ("/api/client/v1/files/buckets/" ++ bucketKey ++ "/objects")%string
    (with_body (JObj data)).

(** vectors.ts, [VectorsResource.delete]: the body is [{ ids }]. *)
Definition Vectors_delete (providerKey indexId : string) (ids : list string)
  : M json :=
  Http.request http net JSON_stringify "DELETE"
    ("/api/client/v1/vector/providers/" ++ providerKey ++ "/indexes/"
     ++ indexId ++ "/vectors")%string
    (with_body (JObj [("ids", JArr (map JStr ids))])).

End Resource.

End Resources.

(* ================================================================== *)
(** ** More observations *)

Module Obs2.
Import Platform Obs.

(** The value of the first entry of a record under a key. *)
Fixpoint lookup (k : string) (o : list (string * string)) : option string :=
  match o with
  | [] => None
  | (k', v) :: rest => if (k' =? k)%string then Some v else lookup k rest
  end.

(** The headers that [buildHeaders] starts from. *)
Definition default_headers (this : Http.HttpClient) : list (string * string) :=
  [("Content-Type", "application/json");
   ("Authorization", ("Bearer " ++ Http.apiKey this)%string);
   ("User-Agent", "@cognipeer/cgate-sdk/1.0.0")].

(** The events of the decoding loop: reads, yields and warnings. *)
Definition is_decoder_event (e : Z * event) : bool :=
  match snd e with
  | Read | Yield _ | Warn _ => true
  | _ => false
  end.

(** Whether the attempt started in [w] throws a retryable error. *)
Definition fails_retryably (this : Http.HttpClient) (net : nat -> behaviour)
    (JSON_stringify : json -> string) (method url : string)
    (headers : list (string * string)) (o : Http.options) (w : world) : bool :=
  match fst (Http.attempt_once this net JSON_stringify method url headers o w)
  with
  | Throw e => retryable e
  | _ => false
  end.

(** The characters that a serialised query parameter is made of. *)
Definition is_query_safe (c : ascii) : bool :=
  is_alnum c || Ascii.eqb c "*" || Ascii.eqb c "-" || Ascii.eqb c "."
  || Ascii.eqb c "_" || Ascii.eqb c "+" || Ascii.eqb c "%".

(** The entries of a query record whose value is defined. *)
Definition defined_entries (entries : list (string * Http.qvalue))
  : list (string * Http.qvalue) :=
  filter (fun kv => match snd kv with
                    | Http.QUndefined => false
                    | _ => true
                    end) entries.

(** The number of occurrences of a character in a text. *)
Fixpoint count_char (c : ascii) (s : string) : nat :=
  match s with
  | EmptyString => O
  | String x rest =>
      if Ascii.eqb x c then S (count_char c rest) else count_char c rest
  end.



(** A text without a newline, and a text of whitespace only. *)
Definition no_newline (s : string) : bool :=
  all_chars (fun c => negb (Ascii.eqb c Str.newline)) s.

Definition all_whitespace (s : string) : bool :=
  all_chars Str.is_whitespace s.

End Obs2.
Import Obs2.

(* ================================================================== *)
(** ** More sample inputs *)

Module Sample2.
Import Platform.

(** An HTTP primitive whose first two calls reject after 5 ms and whose
    later calls answer [{}] after 20 ms. *)
Definition net_recovers (n : nat) : behaviour :=
  if (n <? 2)%nat then Settles 5 (Rejected fetch_failed)
  else Settles 20 (Fulfilled (mkResponse 200 "OK" (Fulfilled (JObj [])) None)).

(** An HTTP primitive whose first two calls reject after 5 ms and whose
    later calls answer with a 429. *)
Definition net_then_limited (n : nat) : behaviour :=
  if (n <? 2)%nat then Settles 5 (Rejected fetch_failed)
  else Settles 20 (Fulfilled response_rate_limit).

Definition syntax_error : error :=
  PlatformError "SyntaxError" "Unexpected token < in JSON at position 0".

(** A 200 whose body is not JSON. *)
Definition response_html : Response :=
  mkResponse 200 "OK" (Rejected syntax_error) None.

Definition net_html (n : nat) : behaviour :=
  Settles 20 (Fulfilled response_html).

(** A client with a negative maxRetries. *)
Definition client_negative : Http.HttpClient :=
  Http.mkClient "https://x.example.com" "test-key" 60000 (-1).

(** A caller's signal that is never aborted. *)
Definition options_signal_idle : Http.options :=
  Http.mkOptions undefined None None (Some (mkSignal None)).

(** A 204 without a body. *)
Definition response_no_body : Response :=
  mkResponse 204 "No Content" (Rejected syntax_error) None.

Definition net_no_body (n : nat) : behaviour :=
  Settles 20 (Fulfilled response_no_body).

(** A body of two reads, one frame in all, whose third read fails. *)
Definition reset : error := PlatformError "TypeError" "terminated".

Definition response_broken_stream : Response :=
  mkResponse 200 "OK" (Rejected syntax_error)
    (Some (mkStream [ ("data: " ++ doc_a ++ nl)%string; "data: {" ]
                    (Some reset))).

Definition net_broken_stream (n : nat) : behaviour :=
  Settles 20 (Fulfilled response_broken_stream).

(** A body whose last frame no newline ends. *)
Definition response_unterminated : Response :=
  mkResponse 200 "OK" (Rejected syntax_error)
    (Some (mkStream ([ ("data: " ++ doc_a ++ nl)%string ]
                     ++ [ ("data: " ++ doc_a)%string ]) None)).

Definition net_unterminated (n : nat) : behaviour :=
  Settles 20 (Fulfilled response_unterminated).

(** A 500 whose body is [{"error": 42}]. *)
Definition response_error_number : Response :=
  mkResponse 500 "Internal Server Error"
    (Fulfilled (JObj [("error", JNum 42)])) None.

(** Chat parameters, without and with [stream: true]. *)
Definition chat_params : list (string * json) :=
  [("model", JStr "gpt-4"); ("messages", JArr [])].

Definition chat_params_stream : list (string * json) :=
  [("model", JStr "gpt-4"); ("messages", JArr []); ("stream", JBool true)].

(** A query with a value full of separators and an undefined value. *)
Definition query_tricky : list (string * Http.qvalue) :=
  [("q", Http.QString "a&b=c?d#e f"); ("page", Http.QUndefined);
   ("limit", Http.QNumber 10)].

End Sample2.
Import Sample2.

(* ================================================================== *)
(** ** Properties *)

Import Platform Obs.

(** *** The constructor of the client *)

(** C10.  A client built with a non-empty key in a runtime that has an
    HTTP primitive takes the default timeout of 60000 ms whenever the
    given timeout is falsy (0, missing or null) and any other timeout as
    given; it takes the given maxRetries whatever it is, 0 included, and
    the default of 3 only when maxRetries is missing or null. *)
Theorem constructor_timeout_and_retries
    (o : Client.CGateClientOptions) (globalThis_fetch : bool)
    (Hkey : Client.apiKey o <> "")
    (Hfetch : Client.fetch o || globalThis_fetch = true) :
  exists c,
    Client.new_CGateClient o globalThis_fetch = inr c /\
    (Client.timeout o = Client.Given 0 ->
     Http.timeout (Client.http c) = 60000) /\
    (Client.timeout o = Client.Undefined \/ Client.timeout o = Client.Null ->
     Http.timeout (Client.http c) = 60000) /\
    (forall t, Client.timeout o = Client.Given t -> t <> 0 ->
     Http.timeout (Client.http c) = t) /\
    (Client.maxRetries o = Client.Given 0 ->
     Http.maxRetries (Client.http c) = 0) /\
    (forall n, Client.maxRetries o = Client.Given n ->
     Http.maxRetries (Client.http c) = n) /\
    (Client.maxRetries o = Client.Undefined \/
     Client.maxRetries o = Client.Null ->
     Http.maxRetries (Client.http c) = 3).
Proof.
  unfold Client.new_CGateClient, Http.new_HttpClient.
  destruct (String.eqb_spec (Client.apiKey o) "") as [E | _]; [contradiction |].
  rewrite Hfetch. eexists. split; [reflexivity |]. cbn.
  repeat split.
  - intros ->. reflexivity.
  - intros [-> | ->]; reflexivity.
  - intros t -> Ht. cbn. destruct (Z.eqb_spec t 0); [contradiction | reflexivity].
  - intros ->. reflexivity.
  - intros n ->. reflexivity.
  - intros [-> | ->]; reflexivity.
Qed.

Lemma constructor_timeout_and_retries_witness :
  exists c,
    Client.new_CGateClient options_zero false = inr c /\
    Http.timeout (Client.http c) = 60000 /\
    Http.maxRetries (Client.http c) = 0.
Proof.
  destruct (constructor_timeout_and_retries options_zero false)
    as (c & Hc & Ht & _ & _ & Hr & _).
  - discriminate.
  - reflexivity.
  - exists c. split; [exact Hc |]. split; [apply Ht | apply Hr]; reflexivity.
Defined.

(** *** Error responses *)

(** What [new CGateAPIError(...)] gives: the instance, with the string
    made of the message, or the [TypeError] of that conversion. *)
Lemma new_CGateAPIError_cases (m : json) (c : Z) (t d : value) :
  (exists s, ToString m = Some s /\
             new_CGateAPIError m c t d = CGateAPIError s c t d)
  \/ (ToString m = None /\ new_CGateAPIError m c t d = Cannot_convert).
Proof.
  unfold new_CGateAPIError.
  destruct (ToString m) as [s |]; [left; exists s | right]; split; reflexivity.
Qed.

Lemma new_CGateAPIError_status (m : json) (c : Z) (t d : value) :
  instanceof_CGateAPIError (new_CGateAPIError m c t d) = true ->
  statusCode_of (new_CGateAPIError m c t d) = Some c.
Proof.
  destruct (new_CGateAPIError_cases m c t d) as [(s & _ & ->) | [_ ->]];
    [reflexivity | discriminate].
Qed.

(** The exception of an error response is an API error or the
    [TypeError] of the conversion; an API error carries the status. *)
Lemma handleErrorResponse_kinds (r : Response) :
  (instanceof_CGateAPIError (Http.handleErrorResponse r) = true /\
   statusCode_of (Http.handleErrorResponse r) = Some (status r))
  \/ Http.handleErrorResponse r = Cannot_convert.
Proof.
  assert (H : forall m t d,
             (instanceof_CGateAPIError
                (new_CGateAPIError m (status r) t d) = true /\
              statusCode_of (new_CGateAPIError m (status r) t d)
              = Some (status r))
             \/ new_CGateAPIError m (status r) t d = Cannot_convert).
  { intros m t d.
    destruct (new_CGateAPIError_cases m (status r) t d)
      as [(s & _ & ->) | [_ ->]]; [left; split; reflexivity | right; reflexivity]. }
  unfold Http.handleErrorResponse.
  destruct (json_ r) as [data | cause]; [| apply H].
  destruct (typeof_object (Some data) && not_null (Some data)); [| apply H].
  destruct (get (Some data) "error") as [[ | b | n | s | items | props] |];
    try apply H;
    destruct (truthy _ && typeof_object _); apply H.
Qed.





(** *** Observations of a trace that grows *)

Ltac obs_app tr1 :=
  induction tr1 as [| [t [] ] tr1 IH]; intros; cbn; rewrite ?IH; reflexivity.

Lemma attempts_app (tr1 tr2 : list (Z * event)) :
  attempts (tr1 ++ tr2) = (attempts tr1 + attempts tr2)%nat.
Proof.
  unfold attempts. rewrite filter_app, length_app. reflexivity.
Qed.

Lemma sleeps_app (tr1 tr2 : list (Z * event)) :
  sleeps (tr1 ++ tr2) = sleeps tr1 ++ sleeps tr2.
Proof. obs_app tr1. Qed.

Lemma bodies_app (tr1 tr2 : list (Z * event)) :
  bodies (tr1 ++ tr2) = bodies tr1 ++ bodies tr2.
Proof. obs_app tr1. Qed.

Lemma calls_and_waits_app (tr1 tr2 : list (Z * event)) :
  calls_and_waits (tr1 ++ tr2) = calls_and_waits tr1 ++ calls_and_waits tr2.
Proof. obs_app tr1. Qed.

Lemma armed_app (tr1 tr2 : list (Z * event)) :
  armed (tr1 ++ tr2) = armed tr1 ++ armed tr2.
Proof. obs_app tr1. Qed.

Lemma cleared_app (tr1 tr2 : list (Z * event)) :
  cleared (tr1 ++ tr2) = cleared tr1 ++ cleared tr2.
Proof. obs_app tr1. Qed.

Lemma yields_app (tr1 tr2 : list (Z * event)) :
  yields (tr1 ++ tr2) = yields tr1 ++ yields tr2.
Proof. obs_app tr1. Qed.

Lemma reads_app (tr1 tr2 : list (Z * event)) :
  reads (tr1 ++ tr2) = (reads tr1 + reads tr2)%nat.
Proof. obs_app tr1. Qed.

Lemma released_app (tr1 tr2 : list (Z * event)) :
  released (tr1 ++ tr2) = (released tr1 + released tr2)%nat.
Proof. obs_app tr1. Qed.

(** *** The retry loop *)

Section Request.

Variable this : Http.HttpClient.
Variable net : nat -> behaviour.
Variable JSON_stringify : json -> string.

(** One attempt, by the way its invocation of the primitive settles. *)
Lemma attempt_once_spec (method url : string)
    (headers : list (string * string)) (o : Http.options) (w : world) :
  let init :=
    mkInit method headers (Http.request_body JSON_stringify o)
      (Some (Http.attempt_signal o
               (mkTimer (timers w) (now w + Http.timeout this)))) in
  let tr :=
    trace w ++ [(now w, SetTimeout (timers w) (Http.timeout this));
                (now w, Fetch url init)] in
  Http.attempt_once this net JSON_stringify method url headers o w =
  match Http.primitive_outcome this net o w with
  | Never => (Pending, mkWorld (now w) tr (S (timers w)) (S (calls w)))
  | At t (Rejected e) => (Throw e, mkWorld t tr (S (timers w)) (S (calls w)))
  | At t (Fulfilled r) =>
      let w' := mkWorld t (tr ++ [(t, ClearTimeout (timers w))])
                        (S (timers w)) (S (calls w)) in
      if ok r then
        match json_ r with
        | Fulfilled data => (Return data, w')
        | Rejected e => (Throw e, w')
        end
      else (Throw (Http.handleErrorResponse r), w')
  end.
Proof.
  cbv zeta.
  unfold Http.attempt_once, Http.primitive_outcome, bind, setTimeout,
    Http.fetchImpl, clearTimeout, emit, Http.response_json, await, throw, ret.
  cbn -[fetch Http.attempt_signal Http.request_body Http.handleErrorResponse].
  rewrite <- app_assoc. cbn [app].
  destruct (fetch _ _ _) as [t [r | e] |]; cbn -[Http.handleErrorResponse];
    try reflexivity.
  destruct (ok r); cbn -[Http.handleErrorResponse]; [| reflexivity].
  destruct (json_ r); reflexivity.
Qed.

(** One iteration of the loop. *)
Lemma request_loop_step (fuel : nat) (method url : string)
    (headers : list (string * string)) (o : Http.options) (i : Z)
    (lastError : option error) (w : world) :
  i <= Http.maxRetries this ->
  Http.request_loop this net JSON_stringify (S fuel) method url headers o i
                    lastError w =
  match Http.attempt_once this net JSON_stringify method url headers o w with
  | (Throw e, w') =>
      if Http.rethrows this i e then (Throw e, w')
      else Http.request_loop this net JSON_stringify fuel method url headers o
             (i + 1) (Some e) (Http.after_backoff i w')
  | r => r
  end.
Proof.
  intros Hi. cbn [Http.request_loop].
  destruct (Z.leb_spec i (Http.maxRetries this)) as [_ | Hlt]; [| lia].
  unfold try_catch.
  destruct (Http.attempt_once _ _ _ _ _ _ _ w) as [[d | e |] w'];
    try reflexivity.
  destruct (Http.rethrows this i e); reflexivity.
Qed.

(** A call still pending when its signal is aborted rejects with the abort
    error, at that time or at once. *)
Lemma fetch_aborted (b : behaviour) (t ta : Z) (reason : error) :
  match b with Hangs => true | Settles d _ => ta <=? t + d end = true ->
  fetch b t (Some (mkSignal (Some (ta, reason))))
  = At (Z.max t ta) (Rejected reason).
Proof.
  intros Hp. unfold fetch.
  destruct (Z.leb_spec ta t).
  - rewrite Z.max_l by lia. reflexivity.
  - rewrite Z.max_r by lia. destruct b as [d s |]; [| reflexivity].
    apply Z.leb_le in Hp. destruct (Z.ltb_spec (t + d) ta); [lia | reflexivity].
Qed.

Lemma fuel_succ (m : Z) : 0 <= m -> Z.to_nat (m + 1) = S (Z.to_nat m).
Proof. intros. rewrite Z2Nat.inj_add by lia. cbn. lia. Qed.

Lemma rethrows_APIError (i : Z) (e : error) :
  instanceof_CGateAPIError e = true -> Http.rethrows this i e = true.
Proof. intros H. unfold Http.rethrows. rewrite H. reflexivity. Qed.

Lemma rethrows_AbortError (i : Z) : Http.rethrows this i AbortError = true.
Proof. unfold Http.rethrows. cbn. reflexivity. Qed.





(** C3, as the code has it.  Without a caller's signal, an attempt whose
    invocation of the primitive is still pending when the internal timer
    fires throws the abort error at once: the loop makes no further
    attempt and no backoff wait, whatever maxRetries is. *)
Theorem timeout_abort_is_not_retried (method path : string) (o : Http.options)
    (url : string)
    (Hurl : Http.buildURL this path (Http.opt_query o) = Some url)
    (Hsignal : Http.opt_signal o = None) :
  (forall fuel i lastError w,
     i <= Http.maxRetries this ->
     Http.pending_at net (now w + Http.timeout this) w = true ->
     exists w',
       Http.request_loop this net JSON_stringify (S fuel) method url
         (Http.buildHeaders this (Http.opt_headers o)) o i lastError w
         = (Throw AbortError, w') /\
       attempts (trace w') = S (attempts (trace w)) /\
       sleeps (trace w') = sleeps (trace w) /\
       now w' = Z.max (now w) (now w + Http.timeout this)) /\
  (0 <= Http.maxRetries this ->
   Http.pending_at net (Http.timeout this) world0 = true ->
   exists w',
     Http.request this net JSON_stringify method path o world0
       = (Throw AbortError, w') /\
     attempts (trace w') = 1%nat /\
     sleeps (trace w') = []).
Proof.
  assert (Hloop : forall fuel i lastError w,
     i <= Http.maxRetries this ->
     Http.pending_at net (now w + Http.timeout this) w = true ->
     exists w',
       Http.request_loop this net JSON_stringify (S fuel) method url
         (Http.buildHeaders this (Http.opt_headers o)) o i lastError w
         = (Throw AbortError, w') /\
       attempts (trace w') = S (attempts (trace w)) /\
       sleeps (trace w') = sleeps (trace w) /\
       now w' = Z.max (now w) (now w + Http.timeout this)).
  { intros fuel i lastError w Hi Hp.
    rewrite request_loop_step by exact Hi.
    rewrite attempt_once_spec. cbv zeta.
    unfold Http.primitive_outcome, Http.attempt_signal. rewrite Hsignal.
    unfold controller_signal, aborted_at. cbn [fires_at].
    rewrite fetch_aborted by exact Hp.
    rewrite rethrows_AbortError.
    eexists. split; [reflexivity |]. cbn [trace now].
    rewrite attempts_app, sleeps_app. cbn. repeat split; try lia.
    apply app_nil_r. }
  split; [exact Hloop |].
  intros Hretries Hp. unfold Http.request.
  rewrite Hurl, fuel_succ by exact Hretries.
  destruct (Hloop (Z.to_nat (Http.maxRetries this)) 0 None world0 Hretries Hp)
    as (w' & Hrun & Ha & Hs & _).
  exists w'. repeat split; assumption.
Qed.


End Request.

(** The fuel that [request] gives its loop is enough: with more fuel the
    loop does the same. *)
Lemma request_loop_fuel (this : Http.HttpClient) (net : nat -> behaviour)
    (JSON_stringify : json -> string) (method url : string)
    (headers : list (string * string)) (o : Http.options) (fuel : nat) :
  forall (i : Z) (lastError : option error) (w : world),
    (Z.to_nat (Http.maxRetries this - i + 1) <= fuel)%nat ->
    Http.request_loop this net JSON_stringify fuel method url headers o i
                      lastError w
    = Http.request_loop this net JSON_stringify
        (Z.to_nat (Http.maxRetries this - i + 1)) method url headers o i
        lastError w.
Proof.
  induction fuel as [| fuel IH]; intros i lastError w Hfuel.
  - replace (Z.to_nat (Http.maxRetries this - i + 1)) with O by lia.
    reflexivity.
  - destruct (Z.leb_spec i (Http.maxRetries this)) as [Hi | Hi].
    + replace (Z.to_nat (Http.maxRetries this - i + 1))
        with (S (Z.to_nat (Http.maxRetries this - (i + 1) + 1))) in * by lia.
      rewrite !request_loop_step by exact Hi.
      destruct (Http.attempt_once _ _ _ _ _ _ _ w) as [[d | e |] w1];
        try reflexivity.
      destruct (Http.rethrows this i e); [reflexivity |].
      apply IH. lia.
    + replace (Z.to_nat (Http.maxRetries this - i + 1)) with O by lia.
      cbn [Http.request_loop].
      destruct (Z.leb_spec i (Http.maxRetries this)); [lia | reflexivity].
Qed.

Lemma total_backoffs (n : nat) (i : Z) :
  0 <= i -> total (backoffs i n) = (2 ^ (i + Z.of_nat n) - 2 ^ i) * 1000.
Proof.
  revert i. induction n as [| n IH]; intros i Hi.
  - cbn [backoffs total fold_right]. rewrite Z.add_0_r. lia.
  - cbn [backoffs]. unfold total in *. cbn [fold_right].
    rewrite IH by lia.
    replace (i + 1 + Z.of_nat n) with (i + Z.of_nat (S n)) by lia.
    rewrite (Z.pow_add_r 2 i 1) by lia. lia.
Qed.

Section Retry.

Variable this : Http.HttpClient.
Variable net : nat -> behaviour.
Variable JSON_stringify : json -> string.

Lemma rethrows_retryable (i : Z) (e : error) :
  retryable e = true -> i <> Http.maxRetries this ->
  Http.rethrows this i e = false.
Proof.
  unfold retryable, is_TransportError, Http.rethrows.
  intros He Hi. apply andb_true_iff in He as [Ha Hn].
  apply negb_true_iff in Ha. apply negb_true_iff in Hn.
  rewrite Ha, Hn. cbn. apply Z.eqb_neq. exact Hi.
Qed.

Lemma rethrows_last (e : error) :
  Http.rethrows this (Http.maxRetries this) e = true.
Proof.
  unfold Http.rethrows. rewrite Z.eqb_refl. apply orb_true_r.
Qed.

Variables (method url : string) (headers : list (string * string)).
Variable o : Http.options.

Hypothesis Hfails : forall w, exists t e,
  Http.primitive_outcome this net o w = At t (Rejected e) /\
  retryable e = true /\ now w <= t.

(** The loop from attempt [i] on, with [n] retries left, when every
    attempt fails with a retryable error. *)
Lemma request_loop_always_failing (n : nat) :
  forall (i : Z) (lastError : option error) (w : world),
    0 <= i -> Http.maxRetries this = i + Z.of_nat n ->
    exists e w' tail init rest,
      Http.request_loop this net JSON_stringify (S n) method url headers o
                        i lastError w = (Throw e, w') /\
      retryable e = true /\
      trace w' = trace w ++ tail /\
      attempts tail = S n /\
      sleeps tail = backoffs i n /\
      calls_and_waits tail = (now w, Fetch url init) :: rest /\
      follows_backoff i (calls_and_waits tail) = true /\
      now w + total (backoffs i n) <= now w'.
Proof.
  induction n as [| n IH]; intros i lastError w Hi HN.
  - rewrite request_loop_step by lia.
    rewrite attempt_once_spec. cbv zeta.
    destruct (Hfails w) as (t & e & Hout & He & Ht). rewrite Hout.
    replace i with (Http.maxRetries this) by lia. rewrite rethrows_last.
    do 5 eexists. split; [reflexivity |]. split; [exact He |].
    split; [reflexivity |]. cbn. repeat split. lia.
  - rewrite request_loop_step by lia.
    rewrite attempt_once_spec. cbv zeta.
    destruct (Hfails w) as (t & e & Hout & He & Ht). rewrite Hout.
    rewrite rethrows_retryable by (assumption || lia).
    match goal with
    | |- context [Http.request_loop _ _ _ _ _ _ _ _ _ _ ?w1] =>
        destruct (IH (i + 1) (Some e) w1) as
          (e' & w' & tail & init & rest & Hrun & He' & Htr & Hatt & Hsl
           & Hcw & Hfb & Hnow); [lia | lia |]
    end.
    rewrite Hrun. cbn [Http.after_backoff now trace] in *.
    do 5 eexists. split; [reflexivity |]. split; [exact He' |].
    split; [rewrite Htr, <- !app_assoc; reflexivity |].
    rewrite !attempts_app, !sleeps_app, !calls_and_waits_app, Hatt, Hsl, Hcw.
    cbn [attempts filter is_fetch snd List.length sleeps calls_and_waits app
         Nat.add backoffs follows_backoff].
    repeat split.
    + rewrite Hcw in Hfb. cbn [follows_backoff] in Hfb. rewrite Hfb.
      destruct (Z.leb_spec (now w) t); [| lia].
      rewrite Z.eqb_refl, Z.leb_refl. reflexivity.
    + unfold total in *. cbn [fold_right]. lia.
Qed.

End Retry.

(** C2.  When every invocation of the HTTP primitive rejects with a
    retryable transport error (neither an API error nor an abort), a call
    with maxRetries = N >= 0 throws such an error after exactly N+1
    attempts; its calls and waits alternate, one after the other, with a
    wait of 2^i seconds between attempt i and attempt i+1; the waits are
    1 s, 2 s, ..., 2^(N-1) s, which sum to 2^N - 1 seconds, and the call
    lasts at least that long. *)
Theorem retries_with_exponential_backoff
    (this : Http.HttpClient) (net : nat -> behaviour)
    (JSON_stringify : json -> string) (method path : string)
    (o : Http.options) (url : string)
    (Hurl : Http.buildURL this path (Http.opt_query o) = Some url)
    (Hretries : 0 <= Http.maxRetries this)
    (Hfails : forall w, exists t e,
        Http.primitive_outcome this net o w = At t (Rejected e) /\
        retryable e = true /\ now w <= t) :
  exists e w,
    Http.request this net JSON_stringify method path o world0 = (Throw e, w) /\
    retryable e = true /\
    attempts (trace w) = S (Z.to_nat (Http.maxRetries this)) /\
    sleeps (trace w) = backoffs 0 (Z.to_nat (Http.maxRetries this)) /\
    total (sleeps (trace w)) = (2 ^ Http.maxRetries this - 1) * 1000 /\
    follows_backoff 0 (calls_and_waits (trace w)) = true /\
    (2 ^ Http.maxRetries this - 1) * 1000 <= now w.
Proof.
  unfold Http.request. rewrite Hurl, fuel_succ by exact Hretries.
  destruct (request_loop_always_failing this net JSON_stringify method url
              (Http.buildHeaders this (Http.opt_headers o)) o Hfails
              (Z.to_nat (Http.maxRetries this)) 0 None world0)
    as (e & w & tail & init & rest & Hrun & He & Htr & Hatt & Hsl & Hcw
        & Hfb & Hnow); [lia | lia |].
  cbn [trace world0 app now] in Htr, Hnow.
  assert (Htotal : total (backoffs 0 (Z.to_nat (Http.maxRetries this)))
                   = (2 ^ Http.maxRetries this - 1) * 1000).
  { rewrite total_backoffs by lia. rewrite Z2Nat.id by lia. cbn. lia. }
  exists e, w. rewrite Htr, Hsl, Htotal. repeat split; try assumption.
  lia.
Qed.

Lemma retries_with_exponential_backoff_witness :
  exists e w,
    Http.request client3 net_down JS.stringify "GET" "/models"
                 Http.no_options world0 = (Throw e, w) /\
    retryable e = true /\
    attempts (trace w) = 4%nat /\
    sleeps (trace w) = [1000; 2000; 4000] /\
    total (sleeps (trace w)) = 7000 /\
    follows_backoff 0 (calls_and_waits (trace w)) = true /\
    7000 <= now w.
Proof.
  apply (retries_with_exponential_backoff client3 net_down JS.stringify
           "GET" "/models" Http.no_options "https://x.example.com/models").
  - reflexivity.
  - cbn. lia.
  - intros w. exists (now w + 5), fetch_failed.
    split; [| split; [reflexivity | lia]].
    unfold Http.primitive_outcome, fetch. cbn.
    destruct (Z.leb_spec (now w + 60000) (now w)); [lia |].
    destruct (Z.ltb_spec (now w + 5) (now w + 60000)); [reflexivity | lia].
Defined.





Lemma timeout_abort_is_not_retried_witness :
  exists w,
    Http.request client3 net_hangs JS.stringify "GET" "/models"
                 Http.no_options world0 = (Throw AbortError, w) /\
    attempts (trace w) = 1%nat /\
    sleeps (trace w) = [].
Proof.
  apply (timeout_abort_is_not_retried client3 net_hangs JS.stringify
           "GET" "/models" Http.no_options "https://x.example.com/models").
  - reflexivity.
  - reflexivity.
  - cbn. lia.
  - reflexivity.
Defined.

(** C3 as stated fails.  The client allows 3 retries and the primitive
    never settles: the internal timer fires at 60000 ms and rejects the
    first attempt, and the call throws after that one attempt, with no
    backoff wait and no retry. *)
Lemma timeout_fired_without_retry :
  Http.maxRetries client3 = 3 /\
  Http.primitive_outcome client3 net_hangs Http.no_options world0
    = At 60000 (Rejected AbortError) /\
  exists w,
    Http.request client3 net_hangs JS.stringify "GET" "/models"
                 Http.no_options world0 = (Throw AbortError, w) /\
    attempts (trace w) = 1%nat /\
    sleeps (trace w) = [] /\
    now w = 60000.
Proof.
  split; [reflexivity |]. split; [reflexivity |].
  eexists. split; [vm_compute; reflexivity |].
  repeat split.
Qed.

(** *** The timeout timer *)

(** An attempt whose invocation of the primitive is answered, with any
    status, clears its timer. *)
Lemma answered_attempt_clears_timer (this : Http.HttpClient)
    (net : nat -> behaviour) (JSON_stringify : json -> string)
    (method url : string) (headers : list (string * string))
    (o : Http.options) (w : world) (t : Z) (r : Response) :
  Http.primitive_outcome this net o w = At t (Fulfilled r) ->
  exists tail,
    trace (snd (Http.attempt_once this net JSON_stringify method url headers
                                  o w)) = trace w ++ tail /\
    armed tail = [timers w] /\ cleared tail = [timers w].
Proof.
  intros H. rewrite attempt_once_spec. cbv zeta. rewrite H.
  eexists. split.
  - destruct (ok r); [destruct (json_ r) |]; cbn [snd trace];
      rewrite <- app_assoc; reflexivity.
  - split; reflexivity.
Qed.

(** An attempt whose invocation of the primitive rejects arms its timer
    and does not clear it. *)
Lemma rejected_attempt_leaves_timer (this : Http.HttpClient)
    (net : nat -> behaviour) (JSON_stringify : json -> string)
    (method url : string) (headers : list (string * string))
    (o : Http.options) (w : world) (t : Z) (e : error) :
  Http.primitive_outcome this net o w = At t (Rejected e) ->
  exists tail,
    trace (snd (Http.attempt_once this net JSON_stringify method url headers
                                  o w)) = trace w ++ tail /\
    armed tail = [timers w] /\ cleared tail = [].
Proof.
  intros H. rewrite attempt_once_spec. cbv zeta. rewrite H.
  eexists. split; [reflexivity |]. split; reflexivity.
Qed.

(** C8 at a failing input.  The client makes no retry and the primitive
    rejects the call with a [TypeError] after 5 ms, long before the
    timeout of 60000 ms: the call throws that error, timer 0 has been
    armed and no timer has been cleared. *)
Theorem timer_not_cleared_on_rejection :
  Http.primitive_outcome client0 net_down Http.no_options world0
    = At 5 (Rejected fetch_failed) /\
  exists w,
    Http.request client0 net_down JS.stringify "GET" "/models"
                 Http.no_options world0 = (Throw fetch_failed, w) /\
    armed (trace w) = [0%nat] /\
    cleared (trace w) = [].
Proof.
  split; [reflexivity |].
  eexists. split; [vm_compute; reflexivity |].
  split; reflexivity.
Qed.

(** *** The stream decoder *)

Lemma string_app_assoc (a b c : string) :
  ((a ++ b) ++ c = a ++ (b ++ c))%string.
Proof. induction a as [| x a IH]; cbn; [reflexivity | now rewrite IH]. Qed.

Lemma string_app_nil_r (a : string) : (a ++ "")%string = a.
Proof. induction a as [| x a IH]; cbn; [reflexivity | now rewrite IH]. Qed.

Lemma split_not_nil (sep : ascii) (s : string) : Str.split sep s <> [].
Proof.
  destruct s as [| c r]; cbn; [discriminate |].
  destruct (Ascii.eqb c sep); [discriminate |].
  destruct (Str.split sep r); discriminate.
Qed.

(** Splitting a text read in two parts: the complete lines of the first
    part, then the split of its last fragment followed by the second
    part. *)
Lemma split_app (sep : ascii) (s t : string) :
  Str.split sep (s ++ t)
  = removelast (Str.split sep s)
    ++ Str.split sep (last (Str.split sep s) "" ++ t).
Proof.
  induction s as [| c r IH].
  - reflexivity.
  - cbn [String.append Str.split].
    destruct (Ascii.eqb c sep) eqn:Ec.
    + rewrite IH.
      destruct (Str.split sep r) as [| h tl] eqn:Er;
        [exfalso; exact (split_not_nil sep r Er) |].
      reflexivity.
    + rewrite IH.
      destruct (Str.split sep r) as [| h tl] eqn:Er;
        [exfalso; exact (split_not_nil sep r Er) |].
      destruct tl as [| x tl'].
      * cbn [removelast last app String.append Str.split]. rewrite Ec.
        reflexivity.
      * reflexivity.
Qed.

Lemma split_last (sep : ascii) (s : string) :
  Str.split sep (last (Str.split sep s) "") = [last (Str.split sep s) ""].
Proof.
  induction s as [| c r IH].
  - reflexivity.
  - cbn [Str.split].
    destruct (Str.split sep r) as [| h tl] eqn:Er;
      [exfalso; exact (split_not_nil sep r Er) |].
    destruct (Ascii.eqb c sep) eqn:Ec.
    + exact IH.
    + destruct tl as [| x tl'].
      * cbn [last] in *. cbn [Str.split]. rewrite Ec, IH. reflexivity.
      * exact IH.
Qed.

Lemma complete_lines_app (s t : string) :
  complete_lines (s ++ t)
  = removelast (Str.split Str.newline s)
    ++ complete_lines (last (Str.split Str.newline s) "" ++ t).
Proof.
  unfold complete_lines. rewrite split_app.
  apply removelast_app, split_not_nil.
Qed.

Lemma complete_lines_last (s : string) :
  complete_lines (last (Str.split Str.newline s) "") = [].
Proof. unfold complete_lines. rewrite split_last. reflexivity. Qed.

Lemma before_sentinel_app (l1 l2 : list string) :
  before_sentinel (l1 ++ l2)
  = if existsb is_sentinel l1 then before_sentinel l1
    else l1 ++ before_sentinel l2.
Proof.
  induction l1 as [| l l1 IH]; [reflexivity |].
  cbn. destruct (is_sentinel l); cbn; [reflexivity |].
  rewrite IH. destruct (existsb is_sentinel l1); reflexivity.
Qed.

Lemma before_sentinel_none (l : list string) :
  existsb is_sentinel l = false -> before_sentinel l = l.
Proof.
  induction l as [| x l IH]; [reflexivity |].
  cbn. destruct (is_sentinel x); cbn; [discriminate |].
  intros H. now rewrite IH.
Qed.

Lemma parsed_payloads_app (parse : string -> option json)
    (l1 l2 : list string) :
  parsed_payloads parse (l1 ++ l2)
  = parsed_payloads parse l1 ++ parsed_payloads parse l2.
Proof.
  induction l1 as [| l l1 IH]; [reflexivity |].
  cbn. destruct (payload l) as [d |]; [destruct (parse d) |]; cbn;
    now rewrite IH.
Qed.

Lemma decoded_app (parse : string -> option json) (s t : string) :
  decoded parse (s ++ t)
  = let lines := removelast (Str.split Str.newline s) in
    if existsb is_sentinel lines
    then parsed_payloads parse (before_sentinel lines)
    else parsed_payloads parse (before_sentinel lines)
         ++ decoded parse (last (Str.split Str.newline s) "" ++ t).
Proof.
  unfold decoded. rewrite complete_lines_app, before_sentinel_app. cbv zeta.
  destruct (existsb is_sentinel _) eqn:E; [reflexivity |].
  rewrite parsed_payloads_app, (before_sentinel_none _ E). reflexivity.
Qed.

Lemma has_sentinel_app (s t : string) :
  has_sentinel (s ++ t)
  = existsb is_sentinel (removelast (Str.split Str.newline s))
    || has_sentinel (last (Str.split Str.newline s) "" ++ t).
Proof.
  unfold has_sentinel. rewrite complete_lines_app. apply existsb_app.
Qed.

Section Decode.

Variable JSON_parse : string -> option json.

(** The line loop emits only yields and warnings; it yields the parsed
    payloads of the lines before the sentinel and tells whether it met
    the sentinel. *)
Lemma process_lines_spec (lines : list string) :
  forall w, exists tail,
    Http.process_lines JSON_parse lines w
      = (Return (existsb is_sentinel lines),
         mkWorld (now w) (trace w ++ tail) (timers w) (calls w)) /\
    yields tail = parsed_payloads JSON_parse (before_sentinel lines) /\
    reads tail = 0%nat /\ released tail = 0%nat /\
    attempts tail = 0%nat /\ bodies tail = [].
Proof.
  induction lines as [| line rest IH]; intros w.
  - exists []. cbn. rewrite app_nil_r. destruct w; repeat split; reflexivity.
  - cbn [Http.process_lines existsb before_sentinel].
    destruct (Str.startsWith "data: " (Str.trim line)) eqn:Ep.
    + assert (Hp : payload line = Some (Str.slice 6 (Str.trim line)))
        by (unfold payload; rewrite Ep; reflexivity).
      destruct (Str.slice 6 (Str.trim line) =? "[DONE]")%string eqn:Ed.
      * assert (Hs : is_sentinel line = true)
          by (unfold is_sentinel; rewrite Hp; exact Ed).
        rewrite Hs. exists []. cbn. rewrite app_nil_r.
        destruct w; repeat split; reflexivity.
      * assert (Hs : is_sentinel line = false)
          by (unfold is_sentinel; rewrite Hp; exact Ed).
        rewrite Hs. cbn [orb parsed_payloads]. rewrite Hp.
        unfold bind.
        destruct (JSON_parse (Str.slice 6 (Str.trim line))) as [v |];
          unfold emit;
          match goal with
          | |- context [Http.process_lines _ _ ?w1] =>
              destruct (IH w1) as (tail & Hrun & Hy & Hr & Hl & Ha & Hb)
          end;
          rewrite Hrun; cbn [now trace timers calls];
          eexists; (split; [rewrite <- app_assoc; reflexivity |]);
          rewrite ?yields_app, ?reads_app, ?released_app, ?attempts_app,
            ?bodies_app, Hy, Hr, Hl, Ha, Hb; repeat split; reflexivity.
    + assert (Hp : payload line = None)
        by (unfold payload; rewrite Ep; reflexivity).
      assert (Hs : is_sentinel line = false)
        by (unfold is_sentinel; rewrite Hp; reflexivity).
      rewrite Hs. cbn [orb parsed_payloads]. rewrite Hp. apply IH.
Qed.


Lemma decoded_buffer (buffer : string) :
  complete_lines buffer = [] ->
  decoded JSON_parse buffer = [] /\ has_sentinel buffer = false.
Proof.
  intros H. unfold decoded, has_sentinel. rewrite H. split; reflexivity.
Qed.

(** The read loop on a body that ends normally, started with a buffer
    that holds no complete line: it yields what the text left decodes to,
    and reads up to the read that completes the sentinel line, or to the
    end of the body. *)
Lemma read_loop_spec (cs : list string) :
  forall (buffer : string) (w : world),
    complete_lines buffer = [] ->
    exists tail,
      Http.read_loop JSON_parse cs None buffer w
        = (Return tt, mkWorld (now w) (trace w ++ tail) (timers w) (calls w)) /\
      yields tail = decoded JSON_parse (buffer ++ text_of cs) /\
      released tail = 0%nat /\ attempts tail = 0%nat /\ bodies tail = [] /\
      (has_sentinel (buffer ++ text_of cs) = false ->
       reads tail = S (List.length cs)) /\
      (has_sentinel (buffer ++ text_of cs) = true ->
       (1 <= reads tail <= List.length cs)%nat /\
       has_sentinel (buffer ++ text_of (firstn (reads tail) cs)) = true /\
       has_sentinel (buffer ++ text_of (firstn (reads tail - 1) cs)) = false).
Proof.
  induction cs as [| value rest IH]; intros buffer w Hb.
  - destruct (decoded_buffer buffer Hb) as [Hd Hs].
    exists [(now w, Read)]. cbn [text_of fold_right].
    rewrite string_app_nil_r, Hd, Hs.
    repeat split; try reflexivity; discriminate.
  - cbn [Http.read_loop text_of fold_right]. fold (text_of rest).
    unfold bind at 1. unfold emit at 1. unfold bind at 1.
    set (lines := Str.split Str.newline (buffer ++ value)).
    match goal with
    | |- context [Http.process_lines _ _ ?w1] =>
        destruct (process_lines_spec (removelast lines) w1)
          as (t1 & Hrun1 & Hy1 & Hr1 & Hl1 & Ha1 & Hb1)
    end.
    rewrite Hrun1. cbn [now trace timers calls].
    rewrite <- (string_app_assoc buffer value (text_of rest)).
    rewrite decoded_app, has_sentinel_app. fold lines. cbv zeta.
    destruct (existsb is_sentinel (removelast lines)) eqn:Es.
    + exists ((now w, Read) :: t1). unfold ret.
      split; [rewrite <- app_assoc; reflexivity |].
      cbn [yields reads released bodies orb].
      change (attempts ((now w, Read) :: t1)) with (attempts t1).
      rewrite Hy1, Hr1, Hl1, Ha1, Hb1.
      repeat split; try reflexivity; try discriminate; try lia.
      * cbn [List.length]. lia.
      * cbn [firstn text_of fold_right].
        rewrite string_app_nil_r, <- (string_app_nil_r (buffer ++ value)).
        rewrite has_sentinel_app. fold lines. rewrite Es. reflexivity.
      * cbn [Nat.sub firstn text_of fold_right]. rewrite string_app_nil_r.
        apply (decoded_buffer buffer Hb).
    + match goal with
      | |- context [Http.read_loop _ _ _ ?b ?w2] =>
          destruct (IH b w2 (complete_lines_last (buffer ++ value)))
            as (t2 & Hrun2 & Hy2 & Hl2 & Ha2 & Hb2 & Hn2 & Hs2)
      end.
      fold lines in Hrun2, Hy2, Hn2, Hs2. rewrite Hrun2.
      cbn [now trace timers calls].
      exists ((now w, Read) :: t1 ++ t2).
      split; [rewrite <- !app_assoc; reflexivity |].
      cbn [yields reads released bodies orb].
      change (attempts ((now w, Read) :: t1 ++ t2)) with (attempts (t1 ++ t2)).
      rewrite yields_app, reads_app, released_app, attempts_app, bodies_app,
        Hy1, Hr1, Hl1, Ha1, Hb1, Hy2, Hl2, Ha2, Hb2.
      rewrite (before_sentinel_none _ Es). cbn [Nat.add app].
      split; [reflexivity |]. split; [reflexivity |].
      split; [reflexivity |]. split; [reflexivity |]. split.
      * intros Hf. rewrite (Hn2 Hf). reflexivity.
      * intros Ht. destruct (Hs2 Ht) as ((Hlo & Hhi) & Hk & Hk').
        split; [cbn [List.length]; lia |].
        cbn [firstn text_of fold_right]. fold (text_of).
        rewrite <- string_app_assoc, has_sentinel_app. fold lines.
        rewrite Es. cbn [orb]. split; [exact Hk |].
        destruct (reads t2) as [| m] eqn:Em; [lia |].
        cbn [Nat.sub firstn text_of fold_right] in *.
        rewrite Nat.sub_0_r in Hk'.
        rewrite <- string_app_assoc, has_sentinel_app. fold lines.
        rewrite Es. exact Hk'.
Qed.


(** Whatever the reads deliver, the read loop calls no HTTP primitive. *)
Lemma read_loop_quiet (cs : list string) (failure : option error) :
  forall (buffer : string) (w : world),
    exists tail,
      trace (snd (Http.read_loop JSON_parse cs failure buffer w))
        = trace w ++ tail /\
      attempts tail = 0%nat /\ bodies tail = [].
Proof.
  induction cs as [| value rest IH]; intros buffer w.
  - exists [(now w, Read)]. destruct failure; repeat split; reflexivity.
  - cbn [Http.read_loop]. unfold bind at 1. unfold emit at 1. unfold bind at 1.
    match goal with
    | |- context [Http.process_lines _ ?ls ?w1] =>
        destruct (process_lines_spec ls w1)
          as (t1 & Hrun1 & _ & _ & _ & Ha1 & Hb1)
    end.
    rewrite Hrun1. cbn [now trace timers calls].
    destruct (existsb is_sentinel _).
    + exists ((now w, Read) :: t1). cbn [ret snd trace].
      rewrite <- app_assoc. repeat split; assumption.
    + match goal with
      | |- context [Http.read_loop _ _ _ ?b ?w2] =>
          destruct (IH b w2) as (t2 & Htr & Ha2 & Hb2)
      end.
      rewrite Htr. cbn [trace].
      exists ((now w, Read) :: t1 ++ t2).
      split; [rewrite <- !app_assoc; reflexivity |].
      change (attempts ((now w, Read) :: t1 ++ t2)) with (attempts (t1 ++ t2)).
      cbn [bodies]. rewrite attempts_app, bodies_app, Ha1, Ha2, Hb1, Hb2.
      split; reflexivity.
Qed.

Variable this : Http.HttpClient.
Variable net : nat -> behaviour.
Variable JSON_stringify : json -> string.

(** C4.  For a stream call answered by a 2xx response whose body
    delivers the reads [cs] and then ends: the generator finishes
    normally; the values it yields are, in order, the parsed payloads of
    the complete lines of the text that, trimmed, start with [data: ] and
    whose payload parses, up to the first line whose payload is [[DONE]]
    (a payload that does not parse and a line without the prefix yield
    nothing and end nothing).  With no sentinel line every chunk is read
    and then the end of the body; with one, the reads stop at the first
    read that completes it.  The reader is released once. *)
Theorem stream_yields_decoded_frames (method path : string) (o : Http.options)
    (url : string) (t : Z) (r : Response) (cs : list string)
    (Hurl : Http.buildURL this path (Http.opt_query o) = Some url)
    (Hcall : fetch (net 0%nat) 0 (Http.opt_signal o) = At t (Fulfilled r))
    (Hok : ok r = true)
    (Hbody : body r = Some (mkStream cs None)) :
  exists w,
    Http.stream this net JSON_stringify JSON_parse method path o world0
      = (Return tt, w) /\
    yields (trace w) = decoded JSON_parse (text_of cs) /\
    attempts (trace w) = 1%nat /\
    released (trace w) = 1%nat /\
    (has_sentinel (text_of cs) = false ->
     reads (trace w) = S (List.length cs)) /\
    (has_sentinel (text_of cs) = true ->
     (1 <= reads (trace w) <= List.length cs)%nat /\
     has_sentinel (text_of (firstn (reads (trace w)) cs)) = true /\
     has_sentinel (text_of (firstn (reads (trace w) - 1) cs)) = false).
Proof.
  unfold Http.stream. rewrite Hurl.
  unfold bind at 1. unfold Http.fetchImpl.
  cbn [calls now world0 trace timers init_signal].
  rewrite Hcall. cbn [await].
  unfold bind at 1. rewrite Hok. cbn [negb ret]. rewrite Hbody.
  unfold bind at 1. unfold emit at 1. cbn [now trace timers calls chunks failure].
  unfold try_finally.
  match goal with
  | |- context [Http.read_loop _ _ _ _ ?w1] =>
      destruct (read_loop_spec cs "" w1 eq_refl)
        as (tail & Hrun & Hy & Hl & Ha & Hb & Hn & Hs)
  end.
  rewrite Hrun. cbn [emit snd now trace timers calls app] in *.
  eexists. split; [reflexivity |]. cbn [trace].
  match goal with
  | |- context [yields ?tr] =>
      assert (Ey : yields tr = yields tail)
        by (cbn [yields]; rewrite yields_app; cbn; apply app_nil_r);
      assert (Er : reads tr = reads tail)
        by (cbn [reads]; rewrite reads_app; cbn; lia);
      assert (El : released tr = 1%nat)
        by (cbn [released]; rewrite released_app, Hl; reflexivity);
      assert (Ea : attempts tr = 1%nat)
        by (change (attempts tr)
              with (S (attempts (tail ++ [(t, ReleaseLock)])));
            rewrite attempts_app, Ha; reflexivity)
  end.
  rewrite Ey, Er, El, Ea, Hy. cbn [String.append] in *.
  split; [reflexivity |]. split; [reflexivity |]. split; [reflexivity |].
  split; [exact Hn | exact Hs].
Qed.

End Decode.

Lemma stream_yields_decoded_frames_witness :
  exists w,
    Http.stream client3 net_stream JS.stringify parse_sample "POST" "/chat"
                Http.no_options world0 = (Return tt, w) /\
    yields (trace w) = [JObj [("a", JNum 1)]] /\
    reads (trace w) = 3%nat.
Proof.
  destruct (stream_yields_decoded_frames parse_sample client3 net_stream
              JS.stringify "POST" "/chat" Http.no_options
              "https://x.example.com/chat" 20 response_stream sse_chunks)
    as (w & Hrun & Hy & _ & _ & _ & Hs); try reflexivity.
  exists w. split; [exact Hrun |]. split; [rewrite Hy; reflexivity |].
  destruct (Hs eq_refl) as ((Hlo & Hhi) & Hk & Hk').
  destruct (reads (trace w)) as [| [| [| [| [| k]]]]];
    cbn in Hlo, Hhi; try lia; try reflexivity;
    vm_compute in Hk, Hk'; discriminate.
Defined.

(** *** The request body *)

Section Bodies.

Variable this : Http.HttpClient.
Variable net : nat -> behaviour.
Variable JSON_stringify : json -> string.
Variable JSON_parse : string -> option json.
Variables (method url : string) (headers : list (string * string)).
Variable o : Http.options.

(** One attempt calls the primitive once, with the body of the options. *)
Lemma attempt_once_body (w : world) :
  exists tail,
    trace (snd (Http.attempt_once this net JSON_stringify method url headers
                                  o w)) = trace w ++ tail /\
    attempts tail = 1%nat /\
    bodies tail = [Http.request_body JSON_stringify o].
Proof.
  rewrite attempt_once_spec. cbv zeta.
  destruct (Http.primitive_outcome this net o w) as [t [r | e] |];
    [destruct (ok r); [destruct (json_ r) |] | |];
    cbn [snd trace]; rewrite <- ?app_assoc;
    eexists; (split; [reflexivity |]); split; reflexivity.
Qed.

Lemma request_loop_bodies (fuel : nat) :
  forall (i : Z) (lastError : option error) (w : world),
    exists tail,
      trace (snd (Http.request_loop this net JSON_stringify fuel method url
                                    headers o i lastError w))
        = trace w ++ tail /\
      bodies tail
        = repeat (Http.request_body JSON_stringify o) (attempts tail) /\
      (fuel <> O -> i <= Http.maxRetries this -> (1 <= attempts tail)%nat).
Proof.
  induction fuel as [| fuel IH]; intros i lastError w.
  - exists []. cbn. rewrite app_nil_r. repeat split. intros H; now elim H.
  - destruct (Z.leb_spec i (Http.maxRetries this)) as [Hi | Hi].
    + rewrite request_loop_step by exact Hi.
      destruct (attempt_once_body w) as (t1 & Htr1 & Ha1 & Hb1).
      destruct (Http.attempt_once _ _ _ _ _ _ _ w) as [[d | e |] w1];
        cbn [snd] in Htr1;
        try (exists t1; cbn [snd]; rewrite Ha1, Hb1;
             repeat split; [assumption | lia]).
      destruct (Http.rethrows this i e).
      * exists t1. cbn [snd]. rewrite Ha1, Hb1. repeat split; [assumption | lia].
      * destruct (IH (i + 1) (Some e) (Http.after_backoff i w1))
          as (t2 & Htr2 & Hb2 & _).
        rewrite Htr2. cbn [Http.after_backoff trace]. rewrite Htr1.
        exists (t1 ++ [(now w1, Sleep (2 ^ i * 1000))] ++ t2).
        split; [rewrite <- !app_assoc; reflexivity |].
        rewrite !bodies_app, !attempts_app, Hb1, Hb2, Ha1. cbn.
        split; [reflexivity | lia].
    + exists []. cbn [Http.request_loop].
      destruct (Z.leb_spec i (Http.maxRetries this)); [lia |].
      cbn. rewrite app_nil_r. repeat split. lia.
Qed.

Lemma stream_body (path : string) :
  Http.buildURL this path (Http.opt_query o) = Some url ->
  bodies (trace (snd (Http.stream this net JSON_stringify JSON_parse method
                                  path o world0)))
  = [Http.request_body JSON_stringify o].
Proof.
  intros Hurl. unfold Http.stream. rewrite Hurl.
  unfold bind at 1. unfold Http.fetchImpl.
  cbn [calls now world0 trace timers init_signal app].
  destruct (fetch _ _ _) as [t [r | e] |]; cbn [await]; try reflexivity.
  unfold bind at 1. destruct (ok r); cbn [negb ret throw]; [| reflexivity].
  destruct (body r) as [b |]; [| reflexivity].
  unfold bind at 1. unfold emit at 1. cbn [now trace timers calls].
  unfold try_finally.
  match goal with
  | |- context [Http.read_loop _ ?cs ?f ?b ?w1] =>
      destruct (read_loop_quiet JSON_parse cs f b w1) as (tail & Htr & _ & Hb);
      destruct (Http.read_loop JSON_parse cs f b w1) as [[[] | e |] w2]
  end; cbn [snd trace emit] in *; rewrite Htr; cbn [app bodies];
    rewrite ?bodies_app, Hb; reflexivity.
Qed.

End Bodies.

(** C9, as the code has it.  In every invocation of the HTTP primitive
    made by a request (which makes at least one) and in the one made by a
    stream, the request body is the JSON serialisation of the body of the
    options when that body is truthy, and there is no request body when
    it is missing or falsy ([null], [false], [0], the empty string). *)
Theorem body_is_sent_when_truthy
    (this : Http.HttpClient) (net : nat -> behaviour)
    (JSON_stringify : json -> string) (JSON_parse : string -> option json)
    (method path : string) (o : Http.options) (url : string)
    (Hurl : Http.buildURL this path (Http.opt_query o) = Some url)
    (Hretries : 0 <= Http.maxRetries this) :
  let sent :=
    match Http.opt_body o with
    | Some j => if truthy (Some j) then Some (JSON_stringify j) else None
    | None => None
    end in
  let wr := snd (Http.request this net JSON_stringify method path o world0) in
  let ws := snd (Http.stream this net JSON_stringify JSON_parse method path o
                             world0) in
  (1 <= attempts (trace wr))%nat /\
  bodies (trace wr) = repeat sent (attempts (trace wr)) /\
  bodies (trace ws) = [sent].
Proof.
  cbv zeta.
  assert (Hsent : Http.request_body JSON_stringify o
                  = match Http.opt_body o with
                    | Some j => if truthy (Some j) then Some (JSON_stringify j)
                                else None
                    | None => None
                    end).
  { unfold Http.request_body. destruct (Http.opt_body o); reflexivity. }
  rewrite <- Hsent.
  split; [| split].
  - unfold Http.request. rewrite Hurl.
    destruct (request_loop_bodies this net JSON_stringify method url
                (Http.buildHeaders this (Http.opt_headers o)) o
                (Z.to_nat (Http.maxRetries this + 1)) 0 None world0)
      as (tail & Htr & _ & Hn).
    rewrite Htr. cbn [trace world0 app]. apply Hn; lia.
  - unfold Http.request. rewrite Hurl.
    destruct (request_loop_bodies this net JSON_stringify method url
                (Http.buildHeaders this (Http.opt_headers o)) o
                (Z.to_nat (Http.maxRetries this + 1)) 0 None world0)
      as (tail & Htr & Hb & _).
    rewrite Htr. exact Hb.
  - apply (stream_body this net JSON_stringify JSON_parse method url o path Hurl).
Qed.

Lemma body_is_sent_when_truthy_witness :
  bodies (trace (snd (Http.request client0 net_ok JS.stringify "POST" "/chat"
                                   options_body_object world0)))
  = [Some ("{" ++ double_quote ++ "n" ++ double_quote ++ ":1}")%string]
  /\
  bodies (trace (snd (Http.stream client0 net_ok JS.stringify parse_sample
                                  "POST" "/chat" Http.no_options world0)))
  = [None].
Proof.
  split.
  - destruct (body_is_sent_when_truthy client0 net_ok JS.stringify
                parse_sample "POST" "/chat" options_body_object
                "https://x.example.com/chat") as (_ & Hr & _).
    + reflexivity.
    + cbn. lia.
    + rewrite Hr. reflexivity.
  - destruct (body_is_sent_when_truthy client0 net_ok JS.stringify
                parse_sample "POST" "/chat" Http.no_options
                "https://x.example.com/chat") as (_ & _ & Hs).
    + reflexivity.
    + cbn. lia.
    + exact Hs.
Defined.

(** C9 as stated fails: the body [false] is supplied, its serialisation
    is the text [false], and both a request and a stream call the
    primitive without a request body. *)
Lemma falsy_body_is_not_sent :
  Http.opt_body options_body_false = Some (JBool false) /\
  JS.stringify (JBool false) = "false" /\
  bodies (trace (snd (Http.request client0 net_ok JS.stringify "POST" "/chat"
                                   options_body_false world0)))
  = [None] /\
  bodies (trace (snd (Http.stream client0 net_ok JS.stringify parse_sample
                                  "POST" "/chat" options_body_false world0)))
  = [None].
Proof. repeat split. Qed.


(** *** The URL *)

Lemma join_split (sep : ascii) (s : string) :
  Str.join (String sep "") (Str.split sep s) = s.
Proof.
  induction s as [| c r IH]; [reflexivity |].
  cbn [Str.split].
  destruct (Str.split sep r) as [| h t] eqn:Er;
    [exfalso; exact (split_not_nil sep r Er) |].
  destruct (Ascii.eqb_spec c sep) as [-> | Hc].
  - change (Str.join (String sep "") ("" :: h :: t))
      with ("" ++ String sep "" ++ Str.join (String sep "") (h :: t))%string.
    rewrite IH. reflexivity.
  - destruct t as [| x t'].
    + cbn [Str.join] in *. now rewrite IH.
    + change (Str.join (String sep "") (String c h :: x :: t'))
        with (String c (Str.join (String sep "") (h :: x :: t'))).
      now rewrite IH.
Qed.

(** Where the join of C1 holds: on a base URL without a path, the URL of
    a path without query is the base URL, a slash and the path without
    its leading slash. *)
Lemma buildURL_on_base_without_path (this : Http.HttpClient)
    (path rel : string) :
  rel = (if Str.startsWith "/" path then Str.slice 1 path else path) ->
  parse_absolute (Http.baseURL this)
    = Some (mkURL (Http.baseURL this) [""] []) ->
  rel <> "" ->
  Str.startsWith "/" rel = false ->
  forallb plain_segment (Str.split Str.slash rel) = true ->
  Http.buildURL this path None = Some (Http.baseURL this ++ "/" ++ rel)%string.
Proof.
  intros Hrel Hbase Hne Hslash Hplain.
  unfold Http.buildURL, URL_new. rewrite <- Hrel, Hbase.
  destruct rel as [| c rest]; [contradiction |].
  assert (Hc : Ascii.eqb c Str.slash = false).
  { unfold Str.startsWith in Hslash. cbn in Hslash.
    destruct (Ascii.eqb_spec c Str.slash) as [-> | _]; [| reflexivity].
    cbn in Hslash. destruct (Ascii.ascii_dec "/" "/"); [| congruence].
    destruct rest; discriminate. }
  rewrite Hc, Hplain.
  unfold URL_toString. cbn [origin pathname searchParams shorten removelast app].
  change "/" with (String Str.slash "") at 2.
  rewrite join_split, string_app_nil_r. reflexivity.
Qed.

(** The query of the URL built holds the entries whose value is defined,
    in order, each once, with [String(value)] as value. *)
Lemma buildURL_query_parameters (this : Http.HttpClient) (path : string)
    (entries : list (string * Http.qvalue)) (u : URL) :
  URL_new (if Str.startsWith "/" path then Str.slice 1 path else path)
          (Http.baseURL this) = Some u ->
  Http.buildURL this path (Some entries)
  = Some (URL_toString
            (mkURL (origin u) (pathname u)
               (searchParams u
                ++ map (fun kv => (fst kv, Http.String_of (snd kv)))
                       (filter (fun kv => match snd kv with
                                          | Http.QUndefined => false
                                          | _ => true
                                          end) entries)))).
Proof.
  intros Hu. unfold Http.buildURL. rewrite Hu. f_equal. f_equal.
  clear Hu. revert u.
  induction entries as [| [k v] rest IH]; intros u.
  - cbn. rewrite app_nil_r. destruct u; reflexivity.
  - cbn [fold_left filter snd fst].
    destruct v; cbn [map]; rewrite IH; unfold searchParams_append;
      cbn [origin pathname searchParams fst snd];
      rewrite <- ?app_assoc; reflexivity.
Qed.

(** C1 at failing inputs.  A client built on [https://x.example.com/v1/]
    keeps the base URL [https://x.example.com/v1]; for the path [/chat]
    it builds [https://x.example.com/chat], where the base URL joined with
    the path is [https://x.example.com/v1/chat].  The client built with
    the default base URL sends the embeddings path to a URL that has lost
    the segment [v1] of the base. *)
Theorem buildURL_replaces_last_base_segment :
  Http.new_HttpClient "https://x.example.com/v1/" "test-key" 60000 3 true true
    = inr (Http.mkClient "https://x.example.com/v1" "test-key" 60000 3) /\
  Http.buildURL (Http.mkClient "https://x.example.com/v1" "test-key" 60000 3)
                "/chat" None
    = Some "https://x.example.com/chat" /\
  Http.buildURL (Http.mkClient "https://x.example.com/v1" "test-key" 60000 3)
                "/chat" None
    <> Some "https://x.example.com/v1/chat" /\
  (exists c,
     Client.new_CGateClient
       (Client.mkClientOptions "test-key" Client.Undefined Client.Undefined
                               Client.Undefined true) true = inr c /\
     Client.getBaseURL c = "https://api.cognipeer.com/api/client/v1" /\
     Http.buildURL (Client.http c) "/api/client/v1/embeddings" None
     = Some "https://api.cognipeer.com/api/client/api/client/v1/embeddings").
Proof.
  split; [reflexivity |]. split; [reflexivity |]. split; [discriminate |].
  eexists. split; [reflexivity |]. split; reflexivity.
Qed.

(* ================================================================== *)
(** ** Further properties of the code *)

(** *** Headers *)

Lemma lookup_app (k : string) (a b : list (string * string)) :
  lookup k (a ++ b)
  = match lookup k a with Some v => Some v | None => lookup k b end.
Proof.
  induction a as [| [k' v] a IH]; [reflexivity |].
  cbn. destruct (k' =? k)%string; [reflexivity | exact IH].
Qed.

Lemma lookup_set_header (k k' v : string) (o : list (string * string)) :
  lookup k (Http.set_header k' v o)
  = if (k' =? k)%string then Some v else lookup k o.
Proof.
  induction o as [| [k0 v0] o IH]; cbn.
  - destruct (k' =? k)%string; reflexivity.
  - destruct (String.eqb_spec k0 k') as [-> | Hne]; cbn.
    + destruct (k' =? k)%string; reflexivity.
    + rewrite IH. destruct (String.eqb_spec k0 k) as [-> | Hk]; [| reflexivity].
      destruct (String.eqb_spec k' k) as [-> | _]; [contradiction | reflexivity].
Qed.

Lemma keys_set_header (x k v : string) (o : list (string * string)) :
  In x (map fst (Http.set_header k v o)) <-> x = k \/ In x (map fst o).
Proof.
  induction o as [| [k0 v0] o IH]; cbn.
  - intuition congruence.
  - destruct (String.eqb_spec k0 k) as [-> | Hne]; cbn.
    + intuition congruence.
    + rewrite IH. intuition congruence.
Qed.

Lemma NoDup_set_header (k v : string) (o : list (string * string)) :
  NoDup (map fst o) -> NoDup (map fst (Http.set_header k v o)).
Proof.
  induction o as [| [k0 v0] o IH]; cbn; intros Hnd.
  - constructor; [intros [] | constructor].
  - destruct (String.eqb_spec k0 k) as [-> | Hne]; cbn.
    + exact Hnd.
    + inversion Hnd as [| ? ? Hnotin Hrest]; subst.
      constructor; [| apply IH; exact Hrest].
      intros Hin. apply keys_set_header in Hin as [-> | Hin]; contradiction.
Qed.

(** The header record that [buildHeaders] returns: under each key the
    caller's last value when the caller gives one, else the default; no
    key occurs twice. *)
Theorem buildHeaders_caller_overrides (this : Http.HttpClient)
    (customHeaders : option (list (string * string))) (k : string) :
  lookup k (Http.buildHeaders this customHeaders)
  = match lookup k (rev (match customHeaders with Some h => h | None => [] end))
    with
    | Some v => Some v
    | None => lookup k (default_headers this)
    end
  /\ NoDup (map fst (Http.buildHeaders this customHeaders)).
Proof.
  unfold Http.buildHeaders. fold (default_headers this).
  assert (Hnd : NoDup (map fst (default_headers this))).
  { cbn. repeat constructor; cbn; intuition discriminate. }
  generalize dependent (default_headers this).
  generalize (match customHeaders with Some h => h | None => [] end).
  intros custom. induction custom as [| [k' v] custom IH]; intros o Hnd.
  - split; [reflexivity | exact Hnd].
  - cbn [fold_left fst snd rev].
    destruct (IH (Http.set_header k' v o) (NoDup_set_header k' v o Hnd))
      as [Hl Hn].
    split; [| exact Hn].
    rewrite Hl, lookup_app, lookup_set_header. cbn [lookup].
    destruct (lookup k (rev custom)); [reflexivity |].
    destruct (k' =? k)%string; reflexivity.
Qed.

(** *** The base URL *)

Lemma rev_onto_app (s acc : string) :
  Str.rev_onto s acc = (Str.rev s ++ acc)%string.
Proof.
  unfold Str.rev. revert acc.
  induction s as [| c s IH]; intros acc; [reflexivity |].
  cbn. rewrite IH, (IH (String c "")), string_app_assoc. reflexivity.
Qed.

Lemma rev_app (a b : string) :
  Str.rev (a ++ b) = (Str.rev b ++ Str.rev a)%string.
Proof.
  induction a as [| c a IH].
  - cbn. rewrite string_app_nil_r. reflexivity.
  - unfold Str.rev in *. cbn. rewrite !(rev_onto_app _ (String c "")).
    unfold Str.rev. rewrite IH, string_app_assoc. reflexivity.
Qed.

Lemma rev_rev (s : string) : Str.rev (Str.rev s) = s.
Proof.
  induction s as [| c s IH]; [reflexivity |].
  change (String c s) with (String c "" ++ s)%string at 1.
  rewrite rev_app, rev_app, IH. reflexivity.
Qed.

Lemma strip_trailing_slash_ends (s : string) :
  Str.strip_trailing_slash (s ++ "/") = s.
Proof.
  unfold Str.strip_trailing_slash. rewrite rev_app. cbn. apply rev_rev.
Qed.

Lemma strip_trailing_slash_other (b : string) :
  (forall s, b <> (s ++ "/")%string) -> Str.strip_trailing_slash b = b.
Proof.
  intros Hb. unfold Str.strip_trailing_slash.
  destruct (Str.rev b) as [| c rest] eqn:E; [reflexivity |].
  destruct (Ascii.eqb_spec c Str.slash) as [-> | _]; [| reflexivity].
  exfalso. apply (Hb (Str.rev rest)).
  rewrite <- (rev_rev b), E.
  change (String Str.slash rest) with (String Str.slash "" ++ rest)%string.
  rewrite rev_app. reflexivity.
Qed.

(** The base URL of a client: the default when the option is missing,
    null or empty; the given one without its last character when that is a
    slash (one slash only), and as given otherwise. *)
Theorem client_base_URL (o : Client.CGateClientOptions)
    (globalThis_fetch : bool)
    (Hkey : Client.apiKey o <> "")
    (Hfetch : Client.fetch o || globalThis_fetch = true) :
  exists c,
    Client.new_CGateClient o globalThis_fetch = inr c /\
    (Client.baseURL o = Client.Undefined \/ Client.baseURL o = Client.Null
     \/ Client.baseURL o = Client.Given "" ->
     Client.getBaseURL c = Client.DEFAULT_BASE_URL) /\
    (forall s, Client.baseURL o = Client.Given (s ++ "/")%string ->
     Client.getBaseURL c = s) /\
    (forall b, b <> "" -> (forall s, b <> (s ++ "/")%string) ->
     Client.baseURL o = Client.Given b -> Client.getBaseURL c = b).
Proof.
  unfold Client.new_CGateClient, Http.new_HttpClient.
  destruct (String.eqb_spec (Client.apiKey o) "") as [E | _]; [contradiction |].
  rewrite Hfetch. eexists. split; [reflexivity |].
  unfold Client.getBaseURL. cbn [Client.http Http.baseURL].
  split; [| split].
  - intros [-> | [-> | ->]]; reflexivity.
  - intros s ->. cbn [Client.string_or].
    destruct (String.eqb_spec (s ++ "/")%string "") as [E | _].
    + destruct s; discriminate.
    + apply strip_trailing_slash_ends.
  - intros b Hb Hend ->. cbn [Client.string_or].
    destruct (String.eqb_spec b "") as [E | _]; [contradiction |].
    apply strip_trailing_slash_other, Hend.
Qed.

Lemma client_base_URL_witness :
  exists c,
    Client.new_CGateClient
      (Client.mkClientOptions "test-key"
         (Client.Given "https://api.example.com/") Client.Undefined
         Client.Undefined true) false = inr c /\
    Client.getBaseURL c = "https://api.example.com".
Proof.
  destruct (client_base_URL
              (Client.mkClientOptions "test-key"
                 (Client.Given "https://api.example.com/") Client.Undefined
                 Client.Undefined true) false)
    as (c & Hc & _ & Hs & _).
  - discriminate.
  - reflexivity.
  - exists c. split; [exact Hc |].
    apply (Hs "https://api.example.com"). reflexivity.
Defined.

(** The constructor of the client succeeds exactly when the key is not
    empty and an HTTP primitive is passed or global.  An empty key throws
    a plain [Error], which is not a [CGateError], whether or not there is
    a primitive; a missing primitive throws a [CGateError]. *)
Theorem client_constructor_errors (o : Client.CGateClientOptions)
    (globalThis_fetch : bool) :
  (Client.apiKey o = "" ->
   exists e, Client.new_CGateClient o globalThis_fetch = inl e /\
             instanceof_CGateError e = false /\
             message_of e = JStr "API key is required") /\
  (Client.apiKey o <> "" -> Client.fetch o || globalThis_fetch = false ->
   exists e, Client.new_CGateClient o globalThis_fetch = inl e /\
             instanceof_CGateError e = true /\
             instanceof_CGateAPIError e = false) /\
  ((exists c, Client.new_CGateClient o globalThis_fetch = inr c) <->
   Client.apiKey o <> "" /\ Client.fetch o || globalThis_fetch = true).
Proof.
  unfold Client.new_CGateClient, Http.new_HttpClient.
  destruct (String.eqb_spec (Client.apiKey o) "") as [E | E].
  - split; [| split].
    + intros _. eexists. repeat split.
    + intros H. contradiction.
    + split; [intros [c Hc]; discriminate | intros [H _]; contradiction].
  - destruct (Client.fetch o || globalThis_fetch) eqn:F.
    + split; [| split].
      * intros H. contradiction.
      * intros _ H. discriminate.
      * split; [intros _; split; [exact E | reflexivity] |].
        intros _. eexists. reflexivity.
    + split; [| split].
      * intros H. contradiction.
      * intros _ _. eexists. repeat split.
      * split; [intros [c Hc]; discriminate | intros [_ H]; discriminate].
Qed.

(** *** The URL, continued *)

(** A leading slash of the path is optional: with or without it the URL
    is the same (one slash only is removed). *)
Theorem buildURL_leading_slash_optional (this : Http.HttpClient)
    (path : string) (query : option (list (string * Http.qvalue)))
    (Hpath : Str.startsWith "/" path = false) :
  Http.buildURL this (String Str.slash path) query
  = Http.buildURL this path query.
Proof.
  unfold Http.buildURL. rewrite Hpath.
  replace (Str.startsWith "/" (String Str.slash path)) with true; [reflexivity |].
  unfold Str.startsWith, Str.slash. cbn.
  destruct (ascii_dec "/" "/") as [_ | Hne]; [| congruence].
  destruct path; reflexivity.
Qed.

Lemma buildURL_leading_slash_optional_witness :
  Http.buildURL client3 "/models" None = Http.buildURL client3 "models" None.
Proof.
  apply (buildURL_leading_slash_optional client3 "models" None). reflexivity.
Defined.

Lemma URL_new_no_params (input base : string) (u : URL) :
  URL_new input base = Some u -> searchParams u = [].
Proof.
  unfold URL_new, parse_absolute.
  destruct (Str.startsWith "https://" base).
  - destruct (Str.split Str.slash (Str.slice 8 base)) as [| host segs];
      [discriminate |].
    destruct (plain_host host && forallb plain_segment segs); [| discriminate].
    destruct input as [| c rest]; [intros [= <-]; reflexivity |].
    destruct (Ascii.eqb c Str.slash).
    + destruct (Str.startsWith "/" rest); [discriminate |].
      destruct (forallb _ _); [intros [= <-]; reflexivity | discriminate].
    + destruct (forallb _ _); [intros [= <-]; reflexivity | discriminate].
  - destruct (Str.startsWith "http://" base); [| discriminate].
    destruct (Str.split Str.slash (Str.slice 7 base)) as [| host segs];
      [discriminate |].
    destruct (plain_host host && forallb plain_segment segs); [| discriminate].
    destruct input as [| c rest]; [intros [= <-]; reflexivity |].
    destruct (Ascii.eqb c Str.slash).
    + destruct (Str.startsWith "/" rest); [discriminate |].
      destruct (forallb _ _); [intros [= <-]; reflexivity | discriminate].
    + destruct (forallb _ _); [intros [= <-]; reflexivity | discriminate].
Qed.

(** The URL with a query, from the URL without it. *)
Lemma buildURL_with_query (this : Http.HttpClient) (path : string)
    (entries : list (string * Http.qvalue)) :
  Http.buildURL this path (Some entries)
  = option_map
      (fun url =>
         (url ++ match defined_entries entries with
                 | [] => ""
                 | d => "?" ++ serialize_params
                                 (map (fun kv => (fst kv, Http.String_of (snd kv)))
                                      d)
                 end)%string)
      (Http.buildURL this path None).
Proof.
  destruct (URL_new (if Str.startsWith "/" path then Str.slice 1 path else path)
                    (Http.baseURL this)) as [u |] eqn:Hu.
  - rewrite (buildURL_query_parameters this path entries u Hu).
    unfold Http.buildURL at 1. rewrite Hu. cbn [option_map].
    rewrite (URL_new_no_params _ _ _ Hu). cbn [app].
    fold (defined_entries entries).
    unfold URL_toString. cbn [origin pathname searchParams].
    rewrite (URL_new_no_params _ _ _ Hu).
    rewrite !string_app_assoc. cbn [String.append].
    destruct (defined_entries entries); reflexivity.
  - unfold Http.buildURL. rewrite Hu. reflexivity.
Qed.

(** The URL with a query is the URL without it followed, when some entry
    has a defined value, by [?] and the defined entries in order, each
    once, as [key=value] joined by [&], keys and values encoded; when no
    entry has a defined value nothing is added, not even the [?]. *)
Theorem buildURL_query_string (this : Http.HttpClient) (path : string)
    (entries : list (string * Http.qvalue)) :
  Http.buildURL this path (Some entries)
  = option_map
      (fun url =>
         (url ++ match defined_entries entries with
                 | [] => ""
                 | d => "?" ++ serialize_params
                                 (map (fun kv => (fst kv, Http.String_of (snd kv)))
                                      d)
                 end)%string)
      (Http.buildURL this path None).
Proof.
  exact (buildURL_with_query this path entries).
Qed.

Lemma all_chars_app (p : ascii -> bool) (a b : string) :
  all_chars p (a ++ b) = all_chars p a && all_chars p b.
Proof.
  induction a as [| c a IH]; [reflexivity |].
  cbn. rewrite IH. apply andb_assoc.
Qed.

Lemma hex_digit_safe (k : nat) :
  (k < 16)%nat -> is_query_safe (hex_digit k) = true.
Proof.
  intros Hk.
  do 16 (destruct k as [| k]; [reflexivity |]). lia.
Qed.

Lemma urlencode_byte_safe (b : ascii) :
  all_chars is_query_safe (urlencode_byte b) = true.
Proof.
  unfold urlencode_byte.
  destruct (is_alnum b || Ascii.eqb b "*" || Ascii.eqb b "-"
            || Ascii.eqb b "." || Ascii.eqb b "_") eqn:E.
  - cbn. unfold is_query_safe. rewrite E. reflexivity.
  - destruct (Ascii.eqb b " "); [reflexivity |].
    pose proof (nat_ascii_bounded b) as Hb.
    cbn [all_chars]. rewrite !hex_digit_safe; [reflexivity | |].
    + apply Nat.mod_upper_bound. discriminate.
    + apply Nat.Div0.div_lt_upper_bound. exact Hb.
Qed.

(** An encoded key or value of the query is made of letters, digits and
    [* - . _ + %] only: it holds no [&], [=], [?], [#], slash or space. *)
Theorem urlencode_is_query_safe (s : string) :
  all_chars is_query_safe (urlencode s) = true.
Proof.
  induction s as [| c s IH]; [reflexivity |].
  cbn [urlencode]. unfold utf8.
  destruct (nat_of_ascii c <? 128)%nat; cbn [fold_right];
    rewrite !all_chars_app, !urlencode_byte_safe, IH; reflexivity.
Qed.

(** *** Error responses, continued *)

(** When the body of an error response parses and its [error] is neither
    a string nor an object (it is missing, [null], a boolean, a number or
    an array), the exception has the generic message and no type, and
    carries the parsed body. *)
Theorem handleErrorResponse_other_shapes (r : Response) (data : json)
    (Hdata : json_ r = Fulfilled data)
    (Hstr : forall s, get (Some data) "error" <> Some (JStr s))
    (Hobj : forall props, get (Some data) "error" <> Some (JObj props)) :
  message_of (Http.handleErrorResponse r) = generic_message r /\
  errorType_of (Http.handleErrorResponse r) = undefined /\
  response_of (Http.handleErrorResponse r) = Some data.
Proof.
  unfold Http.handleErrorResponse, generic_message. rewrite Hdata.
  destruct (typeof_object (Some data) && not_null (Some data));
    [| repeat split].
  destruct (get (Some data) "error") as [[ | b | n | s | items | props] |]
    eqn:E; cbn; rewrite ?andb_false_r; try (repeat split; fail).
  - exfalso. exact (Hstr s eq_refl).
  - exfalso. exact (Hobj props eq_refl).
Qed.

Lemma handleErrorResponse_other_shapes_witness :
  message_of (Http.handleErrorResponse response_error_number)
    = JStr "HTTP 500: Internal Server Error" /\
  errorType_of (Http.handleErrorResponse response_error_number) = undefined /\
  response_of (Http.handleErrorResponse response_error_number)
    = Some (JObj [("error", JNum 42)]).
Proof.
  apply (handleErrorResponse_other_shapes response_error_number
           (JObj [("error", JNum 42)])).
  - reflexivity.
  - intros s. discriminate.
  - intros props. discriminate.
Defined.

Lemma buildURL_on_base_without_path_witness :
  Http.buildURL client3 "/api/client/v1/embeddings" None
  = Some "https://x.example.com/api/client/v1/embeddings".
Proof.
  apply (buildURL_on_base_without_path client3 "/api/client/v1/embeddings"
           "api/client/v1/embeddings").
  - reflexivity.
  - reflexivity.
  - discriminate.
  - reflexivity.
  - reflexivity.
Defined.

Lemma answered_attempt_clears_timer_witness :
  exists tail,
    trace (snd (Http.attempt_once client3 net_rate_limited JS.stringify "GET"
                  "https://x.example.com/models" [] Http.no_options world0))
      = trace world0 ++ tail /\
    armed tail = [0%nat] /\ cleared tail = [0%nat].
Proof.
  apply (answered_attempt_clears_timer client3 net_rate_limited JS.stringify
           "GET" "https://x.example.com/models" [] Http.no_options world0 20
           response_rate_limit).
  reflexivity.
Defined.

(** *** The retry loop, continued *)

Section Loop.

Variable this : Http.HttpClient.
Variable net : nat -> behaviour.
Variable JSON_stringify : json -> string.
Variables (method url : string) (headers : list (string * string)).
Variable o : Http.options.

(** What one attempt adds to the world. *)
Lemma attempt_once_effects (w : world) :
  exists tail,
    trace (snd (Http.attempt_once this net JSON_stringify method url headers
                                  o w)) = trace w ++ tail /\
    attempts tail = 1%nat /\ sleeps tail = [] /\
    armed tail = [timers w] /\
    (cleared tail = [timers w] \/ cleared tail = []) /\
    timers (snd (Http.attempt_once this net JSON_stringify method url headers
                                   o w)) = S (timers w) /\
    calls (snd (Http.attempt_once this net JSON_stringify method url headers
                                  o w)) = S (calls w).
Proof.
  rewrite attempt_once_spec. cbv zeta.
  destruct (Http.primitive_outcome this net o w) as [t [r | e] |];
    [destruct (ok r); [destruct (json_ r) |] | |];
    cbn [snd trace timers calls]; rewrite <- ?app_assoc;
    eexists; (split; [reflexivity |]); cbn; intuition reflexivity.
Qed.

(** The shape of every run of the loop entered with enough fuel. *)
Lemma request_loop_shape (fuel : nat) :
  forall (i : Z) (lastError : option error) (w : world),
    (Z.to_nat (Http.maxRetries this - i + 1) <= fuel)%nat ->
    exists tail,
      trace (snd (Http.request_loop this net JSON_stringify fuel method url
                                    headers o i lastError w))
        = trace w ++ tail /\
      (attempts tail <= Z.to_nat (Http.maxRetries this - i + 1))%nat /\
      (i <= Http.maxRetries this -> (1 <= attempts tail)%nat) /\
      sleeps tail = backoffs i (pred (attempts tail)) /\
      armed tail = seq (timers w) (attempts tail) /\
      NoDup (cleared tail) /\ incl (cleared tail) (armed tail).
Proof.
  induction fuel as [| fuel IH]; intros i lastError w Hfuel.
  - exists []. cbn. rewrite app_nil_r.
    repeat split; try lia; try constructor. intros x [].
  - destruct (Z.leb_spec i (Http.maxRetries this)) as [Hi | Hi].
    + rewrite request_loop_step by exact Hi.
      destruct (attempt_once_effects w)
        as (t1 & Htr1 & Ha1 & Hs1 & Har1 & Hc1 & Htm1 & _).
      assert (Hone : (attempts t1 <= Z.to_nat (Http.maxRetries this - i + 1))%nat
                     /\ (i <= Http.maxRetries this -> (1 <= attempts t1)%nat)
                     /\ sleeps t1 = backoffs i (pred (attempts t1))
                     /\ armed t1 = seq (timers w) (attempts t1)
                     /\ NoDup (cleared t1) /\ incl (cleared t1) (armed t1)).
      { rewrite Ha1, Hs1, Har1. cbn [pred backoffs seq].
        repeat split; try lia.
        - destruct Hc1 as [-> | ->]; repeat constructor. intros [].
        - destruct Hc1 as [-> | ->]; [apply incl_refl | intros x []]. }
      destruct (Http.attempt_once _ _ _ _ _ _ _ w) as [[d | e |] w1];
        cbn [snd] in Htr1, Htm1;
        try (exists t1; split; [exact Htr1 | exact Hone]).
      destruct (Http.rethrows this i e) eqn:Hre;
        [exists t1; split; [exact Htr1 | exact Hone] |].
      assert (Hlt : i < Http.maxRetries this).
      { unfold Http.rethrows in Hre. apply orb_false_iff in Hre as [_ Hne].
        apply Z.eqb_neq in Hne. lia. }
      destruct (IH (i + 1) (Some e) (Http.after_backoff i w1))
        as (t2 & Htr2 & Hle2 & Hge2 & Hs2 & Har2 & Hnd2 & Hin2); [lia |].
      specialize (Hge2 ltac:(lia)).
      rewrite Htr2. cbn [Http.after_backoff trace timers] in *.
      rewrite Htr1, Htm1 in *.
      exists (t1 ++ [(now w1, Sleep (2 ^ i * 1000))] ++ t2).
      split; [rewrite <- !app_assoc; reflexivity |].
      rewrite !attempts_app, !sleeps_app, !armed_app, !cleared_app,
        Ha1, Hs1, Har1, Hs2, Har2.
      cbn [attempts filter is_fetch snd List.length sleeps armed cleared app
           Nat.add pred].
      destruct (attempts t2) as [| n2] eqn:En2; [lia |].
      cbn [pred backoffs seq] in *.
      repeat split; try lia.
      * destruct Hc1 as [-> | ->]; cbn [app]; [| exact Hnd2].
        constructor; [| exact Hnd2].
        intros Hin. apply Hin2 in Hin. rewrite Har2 in Hin.
        change (In (timers w) (seq (S (timers w)) (S n2))) in Hin.
        apply in_seq in Hin. lia.
      * intros x Hx. apply in_app_or in Hx as [Hx | Hx].
        -- destruct Hc1 as [Hc | Hc]; rewrite Hc in Hx;
             [destruct Hx as [<- | []]; left; reflexivity | destruct Hx].
        -- right. rewrite <- Har2. apply Hin2, Hx.
    + exists []. cbn [Http.request_loop].
      destruct (Z.leb_spec i (Http.maxRetries this)); [lia |].
      cbn. rewrite app_nil_r.
      repeat split; try lia; try constructor. intros x [].
Qed.

(** A run of [k] attempts that all fail retryably, then the rest of the
    loop. *)
Lemma request_loop_skips_failures (k : nat) :
  forall (fuel : nat) (i : Z) (lastError : option error) (w : world),
    0 <= i -> i + Z.of_nat k <= Http.maxRetries this ->
    (forall w', (calls w <= calls w' < calls w + k)%nat ->
       fails_retryably this net JSON_stringify method url headers o w' = true) ->
    exists w1 lastError1 tail,
      Http.request_loop this net JSON_stringify (k + S fuel) method url
                        headers o i lastError w
      = Http.request_loop this net JSON_stringify (S fuel) method url
                          headers o (i + Z.of_nat k) lastError1 w1 /\
      trace w1 = trace w ++ tail /\
      attempts tail = k /\ sleeps tail = backoffs i k /\
      calls w1 = (calls w + k)%nat /\ timers w1 = (timers w + k)%nat.
Proof.
  induction k as [| k IH]; intros fuel i lastError w Hi Hk Hfail.
  - exists w, lastError, []. rewrite Z.add_0_r, app_nil_r.
    repeat split; lia.
  - cbn [Nat.add].
    rewrite request_loop_step by lia.
    pose proof (Hfail w ltac:(lia)) as Hw. unfold fails_retryably in Hw.
    destruct (attempt_once_effects w)
      as (t1 & Htr1 & Ha1 & Hs1 & _ & _ & Htm1 & Hcl1).
    destruct (Http.attempt_once _ _ _ _ _ _ _ w) as [[d | e |] w1];
      cbn [fst snd] in *; try discriminate.
    rewrite rethrows_retryable by (assumption || lia).
    destruct (IH fuel (i + 1) (Some e) (Http.after_backoff i w1))
      as (w2 & le2 & t2 & Hrun & Htr2 & Ha2 & Hs2 & Hc2 & Htm2);
      [lia | lia | |].
    { intros w' Hw'. apply Hfail. cbn [Http.after_backoff calls] in Hw'. lia. }
    rewrite Hrun.
    replace (i + 1 + Z.of_nat k) with (i + Z.of_nat (S k)) by lia.
    exists w2, le2, (t1 ++ [(now w1, Sleep (2 ^ i * 1000))] ++ t2).
    cbn [Http.after_backoff trace calls timers] in *.
    split; [reflexivity |].
    split; [rewrite Htr2, Htr1, <- !app_assoc; reflexivity |].
    rewrite !attempts_app, !sleeps_app, Ha1, Hs1, Ha2, Hs2.
    cbn. repeat split; lia.
Qed.




End Loop.


(** A request arms one timer per attempt, with fresh ids; it clears no
    timer twice and none that it did not arm. *)
Theorem request_timers (this : Http.HttpClient)
    (net : nat -> behaviour) (JSON_stringify : json -> string)
    (method path : string) (o : Http.options) :
  let w := snd (Http.request this net JSON_stringify method path o world0) in
  armed (trace w) = seq 0 (attempts (trace w)) /\
  NoDup (cleared (trace w)) /\
  incl (cleared (trace w)) (armed (trace w)).
Proof.
  cbv zeta. unfold Http.request.
  destruct (Http.buildURL this path (Http.opt_query o)) as [url |].
  - destruct (request_loop_shape this net JSON_stringify method url
                (Http.buildHeaders this (Http.opt_headers o)) o
                (Z.to_nat (Http.maxRetries this + 1)) 0 None world0)
      as (tail & Htr & _ & _ & _ & Ha & Hnd & Hin); [lia |].
    rewrite Htr. cbn [trace world0 app timers] in *.
    repeat split; assumption.
  - cbn. repeat split; [constructor | intros x []].
Qed.

(** With a negative maxRetries a request calls nothing, arms no timer and
    throws the [CGateError] "Request failed after retries". *)
Theorem request_negative_maxRetries (this : Http.HttpClient)
    (net : nat -> behaviour) (JSON_stringify : json -> string)
    (method path : string) (o : Http.options) (url : string)
    (Hurl : Http.buildURL this path (Http.opt_query o) = Some url)
    (Hneg : Http.maxRetries this < 0) :
  Http.request this net JSON_stringify method path o world0
  = (Throw (CGateError "Request failed after retries" None undefined), world0).
Proof.
  unfold Http.request. rewrite Hurl.
  destruct (Z.to_nat (Http.maxRetries this + 1)) as [| n]; [reflexivity |].
  cbn [Http.request_loop].
  destruct (Z.leb_spec 0 (Http.maxRetries this)); [lia | reflexivity].
Qed.

Lemma request_negative_maxRetries_witness :
  Http.request client_negative net_ok JS.stringify "GET" "/models"
               Http.no_options world0
  = (Throw (CGateError "Request failed after retries" None undefined), world0).
Proof.
  apply (request_negative_maxRetries client_negative net_ok JS.stringify
           "GET" "/models" Http.no_options "https://x.example.com/models").
  - reflexivity.
  - cbn. lia.
Defined.

(** A request whose first [k] attempts fail retryably and whose next
    call is answered 2xx with a JSON body returns that body after [k+1]
    attempts and the [k] waits 1 s, ..., 2^(k-1) s. *)
Theorem request_succeeds_after_failures (this : Http.HttpClient)
    (net : nat -> behaviour) (JSON_stringify : json -> string)
    (method path : string) (o : Http.options) (url : string)
    (k : nat) (r : Response) (data : json)
    (Hurl : Http.buildURL this path (Http.opt_query o) = Some url)
    (Hk : Z.of_nat k <= Http.maxRetries this)
    (Hfail : forall w, (calls w < k)%nat ->
       fails_retryably this net JSON_stringify method url
         (Http.buildHeaders this (Http.opt_headers o)) o w = true)
    (Hanswer : forall w, calls w = k ->
       exists t, Http.primitive_outcome this net o w = At t (Fulfilled r))
    (Hok : ok r = true)
    (Hjson : json_ r = Fulfilled data) :
  exists w,
    Http.request this net JSON_stringify method path o world0
      = (Return data, w) /\
    attempts (trace w) = S k /\
    sleeps (trace w) = backoffs 0 k.
Proof.
  unfold Http.request. rewrite Hurl.
  replace (Z.to_nat (Http.maxRetries this + 1))
    with (k + S (Z.to_nat (Http.maxRetries this - Z.of_nat k)))%nat by lia.
  destruct (request_loop_skips_failures this net JSON_stringify method url
              (Http.buildHeaders this (Http.opt_headers o)) o k
              (Z.to_nat (Http.maxRetries this - Z.of_nat k)) 0 None world0)
    as (w1 & le & tail & Hrun & Htr & Ha & Hs & Hc & _); [lia | lia | |].
  { intros w' Hw'. apply Hfail. cbn in Hw'. lia. }
  rewrite Hrun, request_loop_step by lia.
  rewrite attempt_once_spec. cbv zeta.
  destruct (Hanswer w1 Hc) as (t & Hout). rewrite Hout, Hok, Hjson.
  eexists. split; [reflexivity |]. cbn [trace].
  rewrite Htr. cbn [trace world0 app].
  rewrite !attempts_app, !sleeps_app, Ha, Hs. cbn.
  split; [lia | rewrite !app_nil_r; reflexivity].
Qed.

(** A request whose first [k] attempts fail retryably and whose next
    call is answered with a non-2xx response of which
    [handleErrorResponse] makes an API error throws that API error after
    [k+1] attempts: the retries left are not used. *)
Theorem request_stops_at_API_error (this : Http.HttpClient)
    (net : nat -> behaviour) (JSON_stringify : json -> string)
    (method path : string) (o : Http.options) (url : string)
    (k : nat) (r : Response)
    (Hurl : Http.buildURL this path (Http.opt_query o) = Some url)
    (Hk : Z.of_nat k <= Http.maxRetries this)
    (Hfail : forall w, (calls w < k)%nat ->
       fails_retryably this net JSON_stringify method url
         (Http.buildHeaders this (Http.opt_headers o)) o w = true)
    (Hanswer : forall w, calls w = k ->
       exists t, Http.primitive_outcome this net o w = At t (Fulfilled r))
    (Hstatus : ok r = false)
    (Hraised : instanceof_CGateAPIError (Http.handleErrorResponse r) = true) :
  exists w,
    Http.request this net JSON_stringify method path o world0
      = (Throw (Http.handleErrorResponse r), w) /\
    attempts (trace w) = S k /\
    sleeps (trace w) = backoffs 0 k.
Proof.
  unfold Http.request. rewrite Hurl.
  replace (Z.to_nat (Http.maxRetries this + 1))
    with (k + S (Z.to_nat (Http.maxRetries this - Z.of_nat k)))%nat by lia.
  destruct (request_loop_skips_failures this net JSON_stringify method url
              (Http.buildHeaders this (Http.opt_headers o)) o k
              (Z.to_nat (Http.maxRetries this - Z.of_nat k)) 0 None world0)
    as (w1 & le & tail & Hrun & Htr & Ha & Hs & Hc & _); [lia | lia | |].
  { intros w' Hw'. apply Hfail. cbn in Hw'. lia. }
  rewrite Hrun, request_loop_step by lia.
  rewrite attempt_once_spec. cbv zeta.
  destruct (Hanswer w1 Hc) as (t & Hout). rewrite Hout, Hstatus.
  rewrite rethrows_APIError by exact Hraised.
  eexists. split; [reflexivity |]. cbn [trace].
  rewrite Htr. cbn [trace world0 app].
  rewrite !attempts_app, !sleeps_app, Ha, Hs. cbn.
  split; [lia | rewrite !app_nil_r; reflexivity].
Qed.

(** A 2xx response whose body is not JSON is retried like a failure of
    the transport: when every call is answered 2xx and [response.json()]
    rejects with a retryable error, the request is sent maxRetries + 1
    times, with all the backoff waits, before the error is thrown. *)
Theorem request_retries_unparsable_success (this : Http.HttpClient)
    (net : nat -> behaviour) (JSON_stringify : json -> string)
    (method path : string) (o : Http.options) (url : string)
    (Hurl : Http.buildURL this path (Http.opt_query o) = Some url)
    (Hretries : 0 <= Http.maxRetries this)
    (Hanswer : forall w, exists t r e,
       Http.primitive_outcome this net o w = At t (Fulfilled r) /\
       ok r = true /\ json_ r = Rejected e /\ retryable e = true) :
  exists e w,
    Http.request this net JSON_stringify method path o world0 = (Throw e, w) /\
    retryable e = true /\
    attempts (trace w) = S (Z.to_nat (Http.maxRetries this)) /\
    sleeps (trace w) = backoffs 0 (Z.to_nat (Http.maxRetries this)).
Proof.
  unfold Http.request. rewrite Hurl.
  replace (Z.to_nat (Http.maxRetries this + 1))
    with (Z.to_nat (Http.maxRetries this) + 1)%nat by lia.
  destruct (request_loop_skips_failures this net JSON_stringify method url
              (Http.buildHeaders this (Http.opt_headers o)) o
              (Z.to_nat (Http.maxRetries this)) 0 0 None world0)
    as (w1 & le & tail & Hrun & Htr & Ha & Hs & _); [lia | lia | |].
  { intros w' _. unfold fails_retryably. rewrite attempt_once_spec. cbv zeta.
    destruct (Hanswer w') as (t & r & e & Hout & Hok & Hj & He).
    rewrite Hout, Hok, Hj. exact He. }
  rewrite Hrun, request_loop_step by lia.
  rewrite attempt_once_spec. cbv zeta.
  destruct (Hanswer w1) as (t & r & e & Hout & Hok & Hj & He).
  rewrite Hout, Hok, Hj.
  replace (0 + Z.of_nat (Z.to_nat (Http.maxRetries this)))
    with (Http.maxRetries this) by lia.
  rewrite rethrows_last.
  exists e. eexists. split; [reflexivity |]. split; [exact He |].
  cbn [trace]. rewrite Htr. cbn [trace world0 app].
  rewrite !attempts_app, !sleeps_app, Ha, Hs. cbn.
  split; [lia | rewrite !app_nil_r; reflexivity].
Qed.

(** When the caller supplies a signal, the timeout does not guard the
    call: with a signal that is never aborted, a primitive that never
    settles leaves the request pending for ever after one call, whatever
    the timeout. *)
Theorem request_timeout_ignored_with_signal (this : Http.HttpClient)
    (net : nat -> behaviour) (JSON_stringify : json -> string)
    (method path : string) (o : Http.options) (url : string)
    (Hurl : Http.buildURL this path (Http.opt_query o) = Some url)
    (Hretries : 0 <= Http.maxRetries this)
    (Hsignal : Http.opt_signal o = Some (mkSignal None))
    (Hhangs : net 0%nat = Hangs) :
  exists w,
    Http.request this net JSON_stringify method path o world0 = (Pending, w) /\
    attempts (trace w) = 1%nat /\
    armed (trace w) = [0%nat] /\ cleared (trace w) = [].
Proof.
  unfold Http.request. rewrite Hurl, fuel_succ by exact Hretries.
  rewrite request_loop_step by exact Hretries.
  rewrite attempt_once_spec. cbv zeta.
  unfold Http.primitive_outcome, Http.attempt_signal. rewrite Hsignal.
  cbn [calls world0 fetch]. rewrite Hhangs.
  eexists. split; [reflexivity |]. repeat split.
Qed.

(** Without a caller's signal, the call of an attempt settles no later
    than the timeout after it starts: with the primitive's own outcome
    when that comes first, else with the abort error. *)
Theorem primitive_settles_within_timeout (this : Http.HttpClient)
    (net : nat -> behaviour) (o : Http.options) (w : world)
    (Hsignal : Http.opt_signal o = None)
    (Htimeout : 0 <= Http.timeout this) :
  exists t s,
    Http.primitive_outcome this net o w = At t s /\
    t <= now w + Http.timeout this /\
    (t = now w + Http.timeout this -> s = Rejected AbortError) /\
    (Http.pending_at net (now w + Http.timeout this) w = true ->
     s = Rejected AbortError).
Proof.
  unfold Http.primitive_outcome, Http.attempt_signal, Http.pending_at.
  rewrite Hsignal. unfold controller_signal, fetch. cbn [fires_at aborted_at].
  destruct (Z.leb_spec (now w + Http.timeout this) (now w)).
  - eexists _, _. split; [reflexivity |]. repeat split; lia.
  - destruct (net (calls w)) as [d s |].
    + destruct (Z.ltb_spec (now w + d) (now w + Http.timeout this)).
      * eexists _, _. split; [reflexivity |]. split; [lia |]. split.
        -- intros. lia.
        -- intros H1. apply Z.leb_le in H1. lia.
      * eexists _, _. split; [reflexivity |]. repeat split; lia.
    + eexists _, _. split; [reflexivity |]. repeat split; lia.
Qed.

(** Without a caller's signal, an invocation that settles before the
    timeout settles as the primitive does. *)
Lemma primitive_outcome_in_time (this : Http.HttpClient)
    (net : nat -> behaviour) (o : Http.options) (w : world)
    (d : Z) (s : settled Response) :
  Http.opt_signal o = None ->
  net (calls w) = Settles d s ->
  0 < Http.timeout this -> d < Http.timeout this ->
  Http.primitive_outcome this net o w = At (now w + d) s.
Proof.
  intros Hsig Hnet Ht Hd.
  unfold Http.primitive_outcome, Http.attempt_signal, fetch.
  rewrite Hsig, Hnet. unfold controller_signal, aborted_at. cbn [fires_at].
  destruct (Z.leb_spec (now w + Http.timeout this) (now w)); [lia |].
  destruct (Z.ltb_spec (now w + d) (now w + Http.timeout this));
    [reflexivity | lia].
Qed.

Lemma request_succeeds_after_failures_witness :
  exists w,
    Http.request client3 net_recovers JS.stringify "GET" "/models"
                 Http.no_options world0 = (Return (JObj []), w) /\
    attempts (trace w) = 3%nat /\
    sleeps (trace w) = [1000; 2000].
Proof.
  apply (request_succeeds_after_failures client3 net_recovers JS.stringify
           "GET" "/models" Http.no_options "https://x.example.com/models"
           2 (mkResponse 200 "OK" (Fulfilled (JObj [])) None) (JObj [])).
  - reflexivity.
  - cbn. lia.
  - intros w Hw. unfold fails_retryably.
    rewrite attempt_once_spec. cbv zeta.
    rewrite (primitive_outcome_in_time client3 net_recovers Http.no_options
               w 5 (Rejected fetch_failed));
      [reflexivity | reflexivity | | cbn; lia | cbn; lia].
    unfold net_recovers. destruct (Nat.ltb_spec (calls w) 2); [reflexivity | lia].
  - intros w Hw. exists (now w + 20).
    apply primitive_outcome_in_time; [reflexivity | | cbn; lia | cbn; lia].
    unfold net_recovers. rewrite Hw. reflexivity.
  - reflexivity.
  - reflexivity.
Defined.

Lemma request_stops_at_API_error_witness :
  exists w,
    Http.request client3 net_then_limited JS.stringify "GET" "/models"
                 Http.no_options world0
      = (Throw (Http.handleErrorResponse response_rate_limit), w) /\
    attempts (trace w) = 3%nat /\
    sleeps (trace w) = [1000; 2000].
Proof.
  apply (request_stops_at_API_error client3 net_then_limited JS.stringify
           "GET" "/models" Http.no_options "https://x.example.com/models"
           2 response_rate_limit).
  - reflexivity.
  - cbn. lia.
  - intros w Hw. unfold fails_retryably.
    rewrite attempt_once_spec. cbv zeta.
    rewrite (primitive_outcome_in_time client3 net_then_limited
               Http.no_options w 5 (Rejected fetch_failed));
      [reflexivity | reflexivity | | cbn; lia | cbn; lia].
    unfold net_then_limited.
    destruct (Nat.ltb_spec (calls w) 2); [reflexivity | lia].
  - intros w Hw. exists (now w + 20).
    apply primitive_outcome_in_time; [reflexivity | | cbn; lia | cbn; lia].
    unfold net_then_limited. rewrite Hw. reflexivity.
  - reflexivity.
  - reflexivity.
Defined.

Lemma request_retries_unparsable_success_witness :
  exists e w,
    Http.request client3 net_html JS.stringify "POST" "/chat"
                 options_body_object world0 = (Throw e, w) /\
    retryable e = true /\
    attempts (trace w) = 4%nat /\
    sleeps (trace w) = [1000; 2000; 4000].
Proof.
  apply (request_retries_unparsable_success client3 net_html JS.stringify
           "POST" "/chat" options_body_object "https://x.example.com/chat").
  - reflexivity.
  - cbn. lia.
  - intros w. exists (now w + 20), response_html, syntax_error.
    split; [| repeat split].
    apply primitive_outcome_in_time;
      [reflexivity | reflexivity | cbn; lia | cbn; lia].
Defined.
Lemma request_timeout_ignored_with_signal_witness :
  exists w,
    Http.request client3 net_hangs JS.stringify "GET" "/models"
                 options_signal_idle world0 = (Pending, w) /\
    attempts (trace w) = 1%nat /\
    armed (trace w) = [0%nat] /\ cleared (trace w) = [].
Proof.
  apply (request_timeout_ignored_with_signal client3 net_hangs JS.stringify
           "GET" "/models" options_signal_idle "https://x.example.com/models").
  - reflexivity.
  - cbn. lia.
  - reflexivity.
  - reflexivity.
Defined.

Lemma primitive_settles_within_timeout_witness :
  exists t s,
    Http.primitive_outcome client3 net_hangs Http.no_options world0 = At t s /\
    t <= 60000 /\
    (t = 60000 -> s = Rejected AbortError) /\
    (Http.pending_at net_hangs 60000 world0 = true -> s = Rejected AbortError).
Proof.
  apply (primitive_settles_within_timeout client3 net_hangs Http.no_options
           world0).
  - reflexivity.
  - cbn. lia.
Defined.

(** *** The stream, continued *)

(** A run of decoder events holds no call, no wait, no timer and no
    release. *)
Lemma decoder_events_quiet (tail : list (Z * event)) :
  forallb is_decoder_event tail = true ->
  attempts tail = 0%nat /\ sleeps tail = [] /\ armed tail = [] /\
  cleared tail = [] /\ released tail = 0%nat.
Proof.
  induction tail as [| [t e] tail IH]; [repeat split |].
  cbn [forallb]. intros H. apply andb_true_iff in H as [He Ht].
  destruct (IH Ht) as (Ha & Hs & Har & Hc & Hr).
  destruct e; try discriminate He; cbn; repeat split; assumption.
Qed.

Section Stream.

Variable JSON_parse : string -> option json.

Lemma process_lines_events (lines : list string) :
  forall w, exists tail,
    snd (Http.process_lines JSON_parse lines w)
      = mkWorld (now w) (trace w ++ tail) (timers w) (calls w) /\
    forallb is_decoder_event tail = true.
Proof.
  induction lines as [| line rest IH]; intros w.
  - exists []. cbn. rewrite app_nil_r. destruct w; split; reflexivity.
  - cbn [Http.process_lines].
    destruct (Str.startsWith "data: " (Str.trim line)); [| apply IH].
    destruct (Str.slice 6 (Str.trim line) =? "[DONE]")%string.
    + exists []. cbn. rewrite app_nil_r. destruct w; split; reflexivity.
    + unfold bind.
      destruct (JSON_parse (Str.slice 6 (Str.trim line))) as [v |];
        unfold emit;
        match goal with
        | |- context [Http.process_lines _ _ ?w1] =>
            destruct (IH w1) as (tail & Hw & Hq);
            destruct (Http.process_lines JSON_parse rest w1) as [[b | e |] w2]
        end; cbn [snd now trace timers calls] in *; rewrite Hw;
        eexists; (split; [rewrite <- app_assoc; reflexivity |]);
        cbn; exact Hq.
Qed.

(** The read loop, whatever the reads deliver and however they end: it
    stops at the sentinel, or at the end of the body, or at the failed
    read, which it throws; it yields what the text read decodes to. *)
Lemma read_loop_any_end (failure : option error) (cs : list string) :
  forall (buffer : string) (w : world),
    complete_lines buffer = [] ->
    exists tail,
      Http.read_loop JSON_parse cs failure buffer w
        = (if has_sentinel (buffer ++ text_of cs) then Return tt
           else match failure with
                | Some e => Throw e
                | None => Return tt
                end,
           mkWorld (now w) (trace w ++ tail) (timers w) (calls w)) /\
      forallb is_decoder_event tail = true /\
      yields tail = decoded JSON_parse (buffer ++ text_of cs) /\
      (has_sentinel (buffer ++ text_of cs) = false ->
       reads tail = S (List.length cs)) /\
      (has_sentinel (buffer ++ text_of cs) = true ->
       (1 <= reads tail <= List.length cs)%nat).
Proof.
  induction cs as [| value rest IH]; intros buffer w Hb.
  - destruct (decoded_buffer JSON_parse buffer Hb) as [Hd Hs].
    exists [(now w, Read)]. cbn [text_of fold_right].
    rewrite string_app_nil_r, Hd, Hs.
    split; [destruct failure; reflexivity |].
    repeat split; try reflexivity; discriminate.
  - cbn [Http.read_loop text_of fold_right]. fold (text_of rest).
    unfold bind at 1. unfold emit at 1. unfold bind at 1.
    set (lines := Str.split Str.newline (buffer ++ value)).
    match goal with
    | |- context [Http.process_lines _ _ ?w1] =>
        destruct (process_lines_spec JSON_parse (removelast lines) w1)
          as (t1 & Hrun1 & Hy1 & Hr1 & _);
        destruct (process_lines_events (removelast lines) w1)
          as (t1' & Hw1 & Hq1)
    end.
    rewrite Hrun1 in Hw1. cbn [snd now trace timers calls] in Hw1.
    injection Hw1 as Hw1. apply app_inv_head in Hw1. subst t1'.
    rewrite Hrun1. cbn [now trace timers calls].
    rewrite <- (string_app_assoc buffer value (text_of rest)).
    rewrite decoded_app, has_sentinel_app. fold lines. cbv zeta.
    destruct (existsb is_sentinel (removelast lines)) eqn:Es.
    + exists ((now w, Read) :: t1). unfold ret. cbn [orb].
      split; [rewrite <- app_assoc; reflexivity |].
      cbn [forallb is_decoder_event snd andb yields reads].
      rewrite Hy1, Hr1.
      repeat split; try assumption; try discriminate; cbn [List.length]; lia.
    + match goal with
      | |- context [Http.read_loop _ _ _ ?b ?w2] =>
          destruct (IH b w2 (complete_lines_last (buffer ++ value)))
            as (t2 & Hrun2 & Hq2 & Hy2 & Hn2 & Hs2)
      end.
      fold lines in Hrun2, Hy2, Hn2, Hs2. rewrite Hrun2.
      cbn [now trace timers calls orb].
      exists ((now w, Read) :: t1 ++ t2).
      split; [rewrite <- !app_assoc; reflexivity |].
      cbn [forallb is_decoder_event snd andb yields reads].
      rewrite forallb_app, yields_app, reads_app, Hq1, Hq2, Hy1, Hy2, Hr1.
      rewrite (before_sentinel_none _ Es). cbn [Nat.add andb].
      split; [reflexivity |]. split; [reflexivity |]. split.
      * intros Hf. rewrite (Hn2 Hf). reflexivity.
      * intros Ht. specialize (Hs2 Ht). cbn [List.length]. lia.
Qed.

Variable this : Http.HttpClient.
Variable net : nat -> behaviour.
Variable JSON_stringify : json -> string.

(** The first steps of [stream], by the way the call settles. *)
Lemma stream_spec (method path : string) (o : Http.options) (url : string) :
  Http.buildURL this path (Http.opt_query o) = Some url ->
  let init := mkInit method (Http.buildHeaders this (Http.opt_headers o))
                     (Http.request_body JSON_stringify o) (Http.opt_signal o) in
  let tr := [(0, Fetch url init)] in
  Http.stream this net JSON_stringify JSON_parse method path o world0 =
  match fetch (net 0%nat) 0 (Http.opt_signal o) with
  | Never => (Pending, mkWorld 0 tr 0 1)
  | At t (Rejected e) => (Throw e, mkWorld t tr 0 1)
  | At t (Fulfilled r) =>
      if ok r then
        match body r with
        | None => (Throw (CGateError "Response body is null" None undefined),
                   mkWorld t tr 0 1)
        | Some b =>
            try_finally (Http.read_loop JSON_parse (chunks b) (failure b) "")
                        (emit ReleaseLock)
                        (mkWorld t (tr ++ [(t, GetReader)]) 0 1)
        end
      else (Throw (Http.handleErrorResponse r), mkWorld t tr 0 1)
  end.
Proof.
  intros Hurl. cbv zeta. unfold Http.stream. rewrite Hurl.
  unfold bind at 1. unfold Http.fetchImpl.
  cbn [calls now world0 trace timers init_signal app].
  destruct (fetch _ _ _) as [t [r | e] |]; cbn [await]; try reflexivity.
  unfold bind at 1. destruct (ok r); cbn [negb ret throw]; [| reflexivity].
  destruct (body r) as [b |]; reflexivity.
Qed.

(** The calls, waits and timers of a stream. *)
Lemma stream_trace_shape (method path : string)
    (o : Http.options) (url : string)
    (Hurl : Http.buildURL this path (Http.opt_query o) = Some url) :
  let w := snd (Http.stream this net JSON_stringify JSON_parse method path o
                            world0) in
  attempts (trace w) = 1%nat /\ sleeps (trace w) = [] /\
  armed (trace w) = [] /\ cleared (trace w) = [] /\
  (released (trace w) <= 1)%nat.
Proof.
  cbv zeta. rewrite (stream_spec method path o url Hurl). cbv zeta.
  destruct (fetch _ _ _) as [t [r | e] |]; cbn [snd trace];
    try (repeat split; cbn; lia).
  destruct (ok r); [| repeat split; cbn; lia].
  destruct (body r) as [b |]; [| repeat split; cbn; lia].
  unfold try_finally.
  match goal with
  | |- context [Http.read_loop _ ?cs ?f ?bf ?w1] =>
      destruct (read_loop_any_end f cs bf w1 eq_refl) as (tail & Hrun & Hq & _)
  end.
  rewrite Hrun.
  destruct (decoder_events_quiet tail Hq) as (Ha & Hs & Har & Hc & Hr).
  destruct (has_sentinel _); [| destruct (failure b)];
    cbn [snd emit trace app now timers calls];
    change (attempts ((0, Fetch url ?i) :: (t, GetReader) :: ?l))
      with (S (attempts l));
    cbn [sleeps armed cleared released];
    rewrite ?attempts_app, ?sleeps_app, ?armed_app, ?cleared_app,
      ?released_app, Ha, Hs, Har, Hc, Hr; cbn; repeat split; lia.
Qed.

(** A stream calls the HTTP primitive exactly once, whatever happens
    next: it is never retried, makes no backoff wait and arms no timeout
    timer; it releases the reader at most once. *)
Theorem stream_is_one_call_without_timer (method path : string)
    (o : Http.options) (url : string)
    (Hurl : Http.buildURL this path (Http.opt_query o) = Some url) :
  let w := snd (Http.stream this net JSON_stringify JSON_parse method path o
                            world0) in
  attempts (trace w) = 1%nat /\ sleeps (trace w) = [] /\
  armed (trace w) = [] /\ cleared (trace w) = [] /\
  (released (trace w) <= 1)%nat.
Proof.
  exact (stream_trace_shape method path o url Hurl).
Qed.


(** A stream has no timeout of its own: without a signal, or with one
    that is never aborted, a primitive that never settles leaves the
    stream pending for ever, with no timer armed. *)
Theorem stream_has_no_timeout (method path : string) (o : Http.options)
    (url : string)
    (Hurl : Http.buildURL this path (Http.opt_query o) = Some url)
    (Hsignal : Http.opt_signal o = None
               \/ Http.opt_signal o = Some (mkSignal None))
    (Hhangs : net 0%nat = Hangs) :
  exists w,
    Http.stream this net JSON_stringify JSON_parse method path o world0
      = (Pending, w) /\
    attempts (trace w) = 1%nat /\ armed (trace w) = [] /\
    yields (trace w) = [].
Proof.
  rewrite (stream_spec method path o url Hurl). cbv zeta. rewrite Hhangs.
  destruct Hsignal as [-> | ->]; cbn [fetch];
    eexists; (split; [reflexivity |]); repeat split.
Qed.

(** A stream answered with a non-2xx response throws the exception of
    that response (the API error with its status or, when the message of
    the response cannot be made a string, the [TypeError] of the
    conversion) before it touches the body: no reader is taken, nothing
    is read and nothing is yielded. *)
Theorem stream_rejects_error_response (method path : string)
    (o : Http.options) (url : string) (t : Z) (r : Response)
    (Hurl : Http.buildURL this path (Http.opt_query o) = Some url)
    (Hcall : fetch (net 0%nat) 0 (Http.opt_signal o) = At t (Fulfilled r))
    (Hstatus : ok r = false) :
  exists w,
    Http.stream this net JSON_stringify JSON_parse method path o world0
      = (Throw (Http.handleErrorResponse r), w) /\
    ((instanceof_CGateAPIError (Http.handleErrorResponse r) = true /\
      statusCode_of (Http.handleErrorResponse r) = Some (status r))
     \/ Http.handleErrorResponse r = Cannot_convert) /\
    reads (trace w) = 0%nat /\ yields (trace w) = [] /\
    released (trace w) = 0%nat.
Proof.
  rewrite (stream_spec method path o url Hurl). cbv zeta.
  rewrite Hcall, Hstatus.
  eexists. split; [reflexivity |].
  split; [apply handleErrorResponse_kinds |]. repeat split.
Qed.

(** A stream answered 2xx without a body throws the [CGateError]
    "Response body is null": nothing is read and nothing is yielded. *)
Theorem stream_rejects_missing_body (method path : string)
    (o : Http.options) (url : string) (t : Z) (r : Response)
    (Hurl : Http.buildURL this path (Http.opt_query o) = Some url)
    (Hcall : fetch (net 0%nat) 0 (Http.opt_signal o) = At t (Fulfilled r))
    (Hok : ok r = true)
    (Hbody : body r = None) :
  exists w,
    Http.stream this net JSON_stringify JSON_parse method path o world0
      = (Throw (CGateError "Response body is null" None undefined), w) /\
    reads (trace w) = 0%nat /\ yields (trace w) = [] /\
    released (trace w) = 0%nat.
Proof.
  rewrite (stream_spec method path o url Hurl). cbv zeta.
  rewrite Hcall, Hok, Hbody.
  eexists. split; [reflexivity |]. repeat split.
Qed.

(** A stream whose body fails at some read: unless the sentinel came
    first, the failure is thrown to the consumer after every value of the
    text read before it has been yielded, and the reader is released. *)
Theorem stream_read_failure (method path : string) (o : Http.options)
    (url : string) (t : Z) (r : Response) (cs : list string) (e : error)
    (Hurl : Http.buildURL this path (Http.opt_query o) = Some url)
    (Hcall : fetch (net 0%nat) 0 (Http.opt_signal o) = At t (Fulfilled r))
    (Hok : ok r = true)
    (Hbody : body r = Some (mkStream cs (Some e))) :
  exists w,
    Http.stream this net JSON_stringify JSON_parse method path o world0
      = (if has_sentinel (text_of cs) then Return tt else Throw e, w) /\
    yields (trace w) = decoded JSON_parse (text_of cs) /\
    released (trace w) = 1%nat /\
    (has_sentinel (text_of cs) = false ->
     reads (trace w) = S (List.length cs)).
Proof.
  rewrite (stream_spec method path o url Hurl). cbv zeta.
  rewrite Hcall, Hok, Hbody. cbn [chunks failure].
  unfold try_finally.
  match goal with
  | |- context [Http.read_loop _ ?cs ?f ?bf ?w1] =>
      destruct (read_loop_any_end f cs bf w1 eq_refl)
        as (tail & Hrun & Hq & Hy & Hn & _)
  end.
  rewrite Hrun. cbn [String.append] in *.
  destruct (decoder_events_quiet tail Hq) as (_ & _ & _ & _ & Hr).
  destruct (has_sentinel (text_of cs)) eqn:Hhs;
    (eexists; split; [reflexivity |]);
    cbn [emit snd trace now timers calls app yields released reads];
    rewrite yields_app, released_app, reads_app, Hy, Hr; cbn;
    (split; [apply app_nil_r |]); (split; [reflexivity |]);
    intros Hf; try discriminate; rewrite (Hn Hf); lia.
Qed.

End Stream.

(** *** The decoder at the edges of a line *)

Lemma text_of_app (a b : list string) :
  text_of (a ++ b) = (text_of a ++ text_of b)%string.
Proof.
  unfold text_of. induction a as [| x a IH]; [reflexivity |].
  cbn. rewrite IH, string_app_assoc. reflexivity.
Qed.

Lemma split_no_newline (s : string) :
  no_newline s = true -> Str.split Str.newline s = [s].
Proof.
  induction s as [| c s IH]; [reflexivity |].
  unfold no_newline. cbn [all_chars Str.split]. intros H.
  apply andb_true_iff in H as [Hc Hs]. apply negb_true_iff in Hc.
  rewrite Hc, (IH Hs). reflexivity.
Qed.

Lemma last_split_no_newline (s : string) :
  no_newline (last (Str.split Str.newline s) "") = true.
Proof.
  induction s as [| c s IH]; [reflexivity |].
  cbn [Str.split].
  destruct (Str.split Str.newline s) as [| h tl] eqn:Er;
    [exfalso; exact (split_not_nil _ s Er) |].
  destruct (Ascii.eqb c Str.newline) eqn:Ec.
  - exact IH.
  - destruct tl as [| x tl']; [| exact IH].
    cbn [last] in *. unfold no_newline in *. cbn [all_chars].
    rewrite Ec, IH. reflexivity.
Qed.

(** Text after the last newline is not decoded. *)
Lemma decoded_unterminated (parse : string -> option json) (t f : string) :
  no_newline f = true -> decoded parse (t ++ f) = decoded parse t.
Proof.
  intros Hf.
  assert (H : forall g, no_newline g = true ->
            complete_lines
              (last (Str.split Str.newline t) "" ++ g) = []).
  { intros g Hg. unfold complete_lines. rewrite split_no_newline; [reflexivity |].
    change (no_newline (last (Str.split Str.newline t) "" ++ g))
      with (all_chars (fun c => negb (Ascii.eqb c Str.newline))
                      (last (Str.split Str.newline t) "" ++ g)).
    rewrite all_chars_app.
    change (no_newline (last (Str.split Str.newline t) "") && no_newline g
            = true).
    rewrite (last_split_no_newline t), Hg. reflexivity. }
  unfold decoded.
  rewrite (complete_lines_app t f), (H f Hf).
  rewrite <- (string_app_nil_r t) at 2.
  rewrite (complete_lines_app t ""), (H "" eq_refl). reflexivity.
Qed.

(** *** Whitespace around a line *)

Lemma trimStart_whitespace (pre x : string) :
  all_whitespace pre = true -> Str.trimStart (pre ++ x) = Str.trimStart x.
Proof.
  unfold all_whitespace. induction pre as [| c pre IH]; [reflexivity |].
  cbn. intros H. apply andb_true_iff in H as [Hc Hp].
  rewrite Hc. exact (IH Hp).
Qed.

Lemma trimStart_all_whitespace (s : string) :
  all_whitespace s = true -> Str.trimStart s = "".
Proof.
  intros H. rewrite <- (string_app_nil_r s).
  rewrite (trimStart_whitespace s "" H). reflexivity.
Qed.

Lemma all_chars_rev (p : ascii -> bool) (s : string) :
  all_chars p (Str.rev s) = all_chars p s.
Proof.
  induction s as [| c s IH]; [reflexivity |].
  change (String c s) with (String c "" ++ s)%string at 1.
  rewrite rev_app, all_chars_app, IH. cbn.
  rewrite andb_true_r. apply andb_comm.
Qed.

Lemma trimEnd_whitespace (x post : string) :
  all_whitespace post = true -> Str.trimEnd (x ++ post) = Str.trimEnd x.
Proof.
  intros H. unfold Str.trimEnd. rewrite rev_app, trimStart_whitespace;
    [reflexivity |].
  unfold all_whitespace in *. rewrite all_chars_rev. exact H.
Qed.

Lemma trim_surrounded (pre line post : string) :
  all_whitespace pre = true -> all_whitespace post = true ->
  Str.trim (pre ++ line ++ post) = Str.trim line.
Proof.
  intros Hpre Hpost. unfold Str.trim.
  rewrite (trimStart_whitespace pre _ Hpre).
  induction line as [| c line IH].
  - cbn [String.append]. rewrite (trimStart_all_whitespace post Hpost).
    reflexivity.
  - cbn [String.append Str.trimStart].
    destruct (Str.is_whitespace c); [exact IH |].
    change (String c (line ++ post)) with (String c line ++ post)%string.
    apply trimEnd_whitespace, Hpost.
Qed.

(** The line loop does not see the whitespace around a line (spaces,
    tabs, the carriage return of a CRLF line end): such a line is handled
    as the line without it. *)
Theorem process_lines_ignores_whitespace (JSON_parse : string -> option json)
    (pre line post : string) (rest : list string)
    (Hpre : all_whitespace pre = true)
    (Hpost : all_whitespace post = true) :
  Http.process_lines JSON_parse ((pre ++ line ++ post)%string :: rest)
  = Http.process_lines JSON_parse (line :: rest).
Proof.
  cbn [Http.process_lines].
  rewrite (trim_surrounded pre line post Hpre Hpost). reflexivity.
Qed.

Lemma process_lines_ignores_whitespace_witness :
  Http.process_lines parse_sample
    [("  " ++ ("data: " ++ doc_a) ++ String "013" "")%string]
  = Http.process_lines parse_sample [("data: " ++ doc_a)%string].
Proof.
  apply (process_lines_ignores_whitespace parse_sample "  "
           ("data: " ++ doc_a)%string (String "013" "") []).
  - reflexivity.
  - reflexivity.
Defined.

(** A last frame that no newline ends is lost: when the body ends with a
    read without a newline, the stream ends normally and yields what the
    body without that read decodes to. *)
Theorem stream_drops_unterminated_frame (JSON_parse : string -> option json)
    (this : Http.HttpClient) (net : nat -> behaviour)
    (JSON_stringify : json -> string) (method path : string)
    (o : Http.options) (url : string) (t : Z) (r : Response)
    (cs : list string) (fragment : string)
    (Hurl : Http.buildURL this path (Http.opt_query o) = Some url)
    (Hcall : fetch (net 0%nat) 0 (Http.opt_signal o) = At t (Fulfilled r))
    (Hok : ok r = true)
    (Hbody : body r = Some (mkStream (cs ++ [fragment]) None))
    (Hfragment : no_newline fragment = true) :
  exists w,
    Http.stream this net JSON_stringify JSON_parse method path o world0
      = (Return tt, w) /\
    yields (trace w) = decoded JSON_parse (text_of cs).
Proof.
  rewrite (stream_spec JSON_parse this net JSON_stringify method path o url
             Hurl). cbv zeta.
  rewrite Hcall, Hok, Hbody. cbn [chunks failure].
  unfold try_finally.
  match goal with
  | |- context [Http.read_loop _ ?l ?f ?bf ?w1] =>
      destruct (read_loop_any_end JSON_parse f l bf w1 eq_refl)
        as (tail & Hrun & _ & Hy & _)
  end.
  rewrite Hrun. cbn [String.append] in *.
  rewrite text_of_app in Hy. cbn [text_of fold_right] in Hy.
  rewrite string_app_nil_r, (decoded_unterminated _ _ _ Hfragment) in Hy.
  destruct (has_sentinel _); eexists; (split; [reflexivity |]);
    cbn [emit snd trace now timers calls app yields];
    rewrite yields_app, Hy; cbn; apply app_nil_r.
Qed.

Lemma stream_drops_unterminated_frame_witness :
  exists w,
    Http.stream client3 net_unterminated JS.stringify parse_sample "POST"
                "/chat" Http.no_options world0 = (Return tt, w) /\
    yields (trace w) = [JObj [("a", JNum 1)]].
Proof.
  apply (stream_drops_unterminated_frame parse_sample client3 net_unterminated
           JS.stringify "POST" "/chat" Http.no_options
           "https://x.example.com/chat" 20 response_unterminated
           [("data: " ++ doc_a ++ nl)%string] ("data: " ++ doc_a)%string).
  - reflexivity.
  - reflexivity.
  - reflexivity.
  - reflexivity.
  - reflexivity.
Defined.

Lemma stream_is_one_call_without_timer_witness :
  attempts (trace (snd (Http.stream client3 net_down JS.stringify parse_sample
                          "POST" "/chat" Http.no_options world0))) = 1%nat /\
  sleeps (trace (snd (Http.stream client3 net_down JS.stringify parse_sample
                        "POST" "/chat" Http.no_options world0))) = [] /\
  armed (trace (snd (Http.stream client3 net_down JS.stringify parse_sample
                       "POST" "/chat" Http.no_options world0))) = [] /\
  cleared (trace (snd (Http.stream client3 net_down JS.stringify parse_sample
                         "POST" "/chat" Http.no_options world0))) = [] /\
  (released (trace (snd (Http.stream client3 net_down JS.stringify
                           parse_sample "POST" "/chat" Http.no_options
                           world0))) <= 1)%nat.
Proof.
  apply (stream_is_one_call_without_timer parse_sample client3 net_down
           JS.stringify "POST" "/chat" Http.no_options
           "https://x.example.com/chat").
  reflexivity.
Defined.

Lemma stream_has_no_timeout_witness :
  exists w,
    Http.stream client3 net_hangs JS.stringify parse_sample "POST" "/chat"
                Http.no_options world0 = (Pending, w) /\
    attempts (trace w) = 1%nat /\ armed (trace w) = [] /\
    yields (trace w) = [].
Proof.
  apply (stream_has_no_timeout parse_sample client3 net_hangs JS.stringify
           "POST" "/chat" Http.no_options "https://x.example.com/chat").
  - reflexivity.
  - left. reflexivity.
  - reflexivity.
Defined.

Lemma stream_rejects_error_response_witness :
  exists w,
    Http.stream client3 net_rate_limited JS.stringify parse_sample "POST"
                "/chat" Http.no_options world0
      = (Throw (Http.handleErrorResponse response_rate_limit), w) /\
    instanceof_CGateAPIError (Http.handleErrorResponse response_rate_limit)
      = true /\
    statusCode_of (Http.handleErrorResponse response_rate_limit) = Some 429 /\
    reads (trace w) = 0%nat /\ yields (trace w) = [] /\
    released (trace w) = 0%nat.
Proof.
  destruct (stream_rejects_error_response parse_sample client3
              net_rate_limited JS.stringify "POST" "/chat" Http.no_options
              "https://x.example.com/chat" 20 response_rate_limit)
    as (w & Hrun & [[Hi Hs] | Hc] & Hr & Hy & Hl).
  - reflexivity.
  - reflexivity.
  - reflexivity.
  - exists w. repeat split; assumption.
  - discriminate Hc.
Defined.

Lemma stream_rejects_missing_body_witness :
  exists w,
    Http.stream client3 net_no_body JS.stringify parse_sample "POST" "/chat"
                Http.no_options world0
      = (Throw (CGateError "Response body is null" None undefined), w) /\
    reads (trace w) = 0%nat /\ yields (trace w) = [] /\
    released (trace w) = 0%nat.
Proof.
  apply (stream_rejects_missing_body parse_sample client3 net_no_body
           JS.stringify "POST" "/chat" Http.no_options
           "https://x.example.com/chat" 20 response_no_body).
  - reflexivity.
  - reflexivity.
  - reflexivity.
  - reflexivity.
Defined.

Lemma stream_read_failure_witness :
  exists w,
    Http.stream client3 net_broken_stream JS.stringify parse_sample "POST"
                "/chat" Http.no_options world0 = (Throw reset, w) /\
    yields (trace w) = [JObj [("a", JNum 1)]] /\
    released (trace w) = 1%nat /\
    reads (trace w) = 3%nat.
Proof.
  destruct (stream_read_failure parse_sample client3 net_broken_stream
              JS.stringify "POST" "/chat" Http.no_options
              "https://x.example.com/chat" 20 response_broken_stream
              [("data: " ++ doc_a ++ nl)%string; "data: {"] reset)
    as (w & Hrun & Hy & Hr & Hn); try reflexivity.
  exists w. split; [exact Hrun |]. split; [rewrite Hy; reflexivity |].
  split; [exact Hr | apply Hn; reflexivity].
Defined.

(** *** The resources *)

Lemma bind_ret_world {A B : Type} (m : M A) (f : A -> B) (w : world) :
  snd (bind m (fun a => ret (f a)) w) = snd (m w) /\
  fst (bind m (fun a => ret (f a)) w)
  = match fst (m w) with
    | Return a => Return (f a)
    | Throw e => Throw e
    | Pending => Pending
    end.
Proof.
  unfold bind, ret. destruct (m w) as [[a | e |] w']; split; reflexivity.
Qed.

Section Resources.

Variable http : Http.HttpClient.
Variable net : nat -> behaviour.
Variable JSON_stringify : json -> string.
Variable JSON_parse : string -> option json.

(** Every call that a request with an object as body makes carries the
    serialised object. *)
Lemma request_sends_object (method path : string)
    (props : list (string * json)) :
  let w := snd (Http.request http net JSON_stringify method path
                             (Resources.with_body (JObj props)) world0) in
  bodies (trace w)
  = repeat (Some (JSON_stringify (JObj props))) (attempts (trace w)) /\
  armed (trace w) = seq 0 (attempts (trace w)) /\
  (forall url,
     Http.buildURL http path None = Some url -> 0 <= Http.maxRetries http ->
     (1 <= attempts (trace w))%nat).
Proof.
  cbv zeta. unfold Http.request. cbn [Resources.with_body Http.opt_query].
  destruct (Http.buildURL http path None) as [url |].
  - match goal with
    | |- context [Http.request_loop _ _ _ ?fuel ?m ?u ?h ?o ?i ?le ?w] =>
        destruct (request_loop_bodies http net JSON_stringify m u h o fuel i
                    le w) as (tail & Htr & Hb & _);
        destruct (request_loop_shape http net JSON_stringify m u h o fuel i
                    le w) as (tail' & Htr' & _ & Hge & _ & Har & _); [lia |]
    end.
    rewrite Htr in Htr'. apply app_inv_head in Htr'. subst tail'.
    rewrite Htr. cbn [trace world0 app timers] in *.
    split; [exact Hb |]. split; [exact Har |].
    intros url' _ Hretries. apply Hge. exact Hretries.
  - cbn. repeat split. intros url' H. discriminate.
Qed.

(** [chat.completions.create] on a path that gives a URL.
    With a truthy [params.stream] it resolves at once to the generator of
    [stream]: the call of [create] itself calls nothing, arms no timer
    and throws nothing.  Drained by its consumer, that generator makes
    exactly one call of the HTTP primitive, which carries the serialised
    parameters, the flag included, without a timeout timer and without a
    wait.
    With a falsy or missing [params.stream] it never resolves to a
    generator; every call it makes carries the serialised parameters, it
    arms one timer per attempt, and it makes at least one call when
    maxRetries is not negative. *)
Theorem chat_create_by_stream_flag (params : list (string * json))
    (url : string)
    (Hurl : Http.buildURL http "/api/client/v1/chat/completions" None
            = Some url) :
  let run := Resources.ChatCompletions_create http net JSON_stringify
               JSON_parse params world0 in
  (truthy (assoc "stream" params) = true ->
   exists generator,
     run = (Return (Resources.Chunks generator), world0) /\
     attempts (trace (snd (generator world0))) = 1%nat /\
     bodies (trace (snd (generator world0)))
     = [Some (JSON_stringify (JObj params))] /\
     armed (trace (snd (generator world0))) = [] /\
     sleeps (trace (snd (generator world0))) = []) /\
  (truthy (assoc "stream" params) = false ->
   (forall generator, fst run <> Return (Resources.Chunks generator)) /\
   bodies (trace (snd run))
   = repeat (Some (JSON_stringify (JObj params)))
            (attempts (trace (snd run))) /\
   armed (trace (snd run)) = seq 0 (attempts (trace (snd run))) /\
   (0 <= Http.maxRetries http -> (1 <= attempts (trace (snd run)))%nat)).
Proof.
  cbv zeta. unfold Resources.ChatCompletions_create.
  destruct (truthy (assoc "stream" params)).
  - split; [| intros H; discriminate].
    intros _. eexists. split; [reflexivity |].
    pose proof (stream_body http net JSON_stringify JSON_parse "POST" url
                  (Resources.with_body (JObj params))
                  "/api/client/v1/chat/completions" Hurl) as Hb.
    pose proof (stream_trace_shape JSON_parse http net JSON_stringify "POST"
                  "/api/client/v1/chat/completions"
                  (Resources.with_body (JObj params)) url Hurl)
      as (Ha & Hs & Har & _).
    repeat split; assumption.
  - split; [intros H; discriminate |].
    intros _.
    match goal with
    | |- context [bind ?m ?k world0] =>
        destruct (bind_ret_world m Resources.Completion world0) as [Hw Hr]
    end.
    rewrite Hw, Hr.
    destruct (request_sends_object "POST" "/api/client/v1/chat/completions"
                params) as (Hb & Har & Hge).
    split; [| split; [exact Hb | split; [exact Har |]]].
    + intros generator.
      destruct (fst (Http.request _ _ _ _ _ _ _)); discriminate.
    + intros Hretries. exact (Hge url Hurl Hretries).
Qed.

(** The resource methods that take a payload send it with every call
    they make, an empty list of ids included: embeddings, tracing
    sessions, file uploads and the deletion of vectors. *)
Theorem resources_send_their_payload (params data : list (string * json))
    (bucketKey providerKey indexId : string) (ids : list string) :
  (let w := snd (Resources.Embeddings_create http net JSON_stringify params
                   world0) in
   bodies (trace w)
   = repeat (Some (JSON_stringify (JObj params))) (attempts (trace w))) /\
  (let w := snd (Resources.Tracing_ingest http net JSON_stringify data
                   world0) in
   bodies (trace w)
   = repeat (Some (JSON_stringify (JObj data))) (attempts (trace w))) /\
  (let w := snd (Resources.Files_upload http net JSON_stringify bucketKey
                   data world0) in
   bodies (trace w)
   = repeat (Some (JSON_stringify (JObj data))) (attempts (trace w))) /\
  (let w := snd (Resources.Vectors_delete http net JSON_stringify providerKey
                   indexId ids world0) in
   bodies (trace w)
   = repeat (Some (JSON_stringify (JObj [("ids", JArr (map JStr ids))])))
            (attempts (trace w))).
Proof.
  repeat split; apply request_sends_object.
Qed.

End Resources.

Lemma chat_create_by_stream_flag_witness :
  (exists generator,
     Resources.ChatCompletions_create client3 net_stream JS.stringify
       parse_sample chat_params_stream world0
     = (Return (Resources.Chunks generator), world0) /\
     attempts (trace (snd (generator world0))) = 1%nat) /\
  armed (trace (snd (Resources.ChatCompletions_create client3 net_ok
                       JS.stringify parse_sample chat_params world0)))
  = seq 0 (attempts
             (trace (snd (Resources.ChatCompletions_create client3 net_ok
                            JS.stringify parse_sample chat_params world0)))).
Proof.
  split.
  - destruct (chat_create_by_stream_flag client3 net_stream JS.stringify
                parse_sample chat_params_stream
                "https://x.example.com/api/client/v1/chat/completions")
      as [Hs _].
    + reflexivity.
    + destruct (Hs eq_refl) as (generator & Hrun & Ha & _).
      exists generator. split; assumption.
  - destruct (chat_create_by_stream_flag client3 net_ok JS.stringify
                parse_sample chat_params
                "https://x.example.com/api/client/v1/chat/completions")
      as [_ Hr].
    + reflexivity.
    + apply Hr. reflexivity.
Defined.

Section Filters.

Variable http : Http.HttpClient.
Variable net : nat -> behaviour.
Variable JSON_stringify : json -> string.

(** The loop reads the body and the signal of the options only. *)
Lemma request_loop_options (method url : string)
    (headers : list (string * string)) (o1 o2 : Http.options) (fuel : nat) :
  Http.opt_body o1 = Http.opt_body o2 ->
  Http.opt_signal o1 = Http.opt_signal o2 ->
  forall (i : Z) (lastError : option error) (w : world),
    Http.request_loop http net JSON_stringify fuel method url headers o1 i
                      lastError w
    = Http.request_loop http net JSON_stringify fuel method url headers o2 i
                        lastError w.
Proof.
  intros Hb Hs.
  assert (Hattempt : forall w,
    Http.attempt_once http net JSON_stringify method url headers o1 w
    = Http.attempt_once http net JSON_stringify method url headers o2 w).
  { intros w. rewrite !attempt_once_spec. cbv zeta.
    unfold Http.primitive_outcome, Http.attempt_signal, Http.request_body.
    rewrite Hb, Hs. reflexivity. }
  induction fuel as [| fuel IH]; intros i lastError w; [reflexivity |].
  destruct (Z.leb_spec i (Http.maxRetries http)) as [Hi | Hi].
  - rewrite !request_loop_step by exact Hi. rewrite Hattempt.
    destruct (Http.attempt_once _ _ _ _ _ _ _ w) as [[d | e |] w1];
      try reflexivity.
    destruct (Http.rethrows http i e); [reflexivity | apply IH].
  - cbn [Http.request_loop].
    destruct (Z.leb_spec i (Http.maxRetries http)); [lia | reflexivity].
Qed.

(** [files.list] with filters that are all undefined does what it does
    without filters: the same calls to the same URL, the same result. *)
Theorem files_list_undefined_filters (bucketKey : string)
    (query : list (string * Http.qvalue))
    (Hquery : defined_entries query = []) :
  Resources.Files_list http net JSON_stringify bucketKey (Some query) world0
  = Resources.Files_list http net JSON_stringify bucketKey None world0.
Proof.
  unfold Resources.Files_list, Http.request.
  cbn [Resources.with_query Http.opt_query Http.opt_headers].
  rewrite buildURL_with_query, Hquery.
  destruct (Http.buildURL http _ None) as [url |]; cbn [option_map];
    [| reflexivity].
  rewrite string_app_nil_r.
  apply request_loop_options; reflexivity.
Qed.

End Filters.

Lemma files_list_undefined_filters_witness :
  Resources.Files_list client3 net_ok JS.stringify "docs"
    (Some [("limit", Http.QUndefined); ("cursor", Http.QUndefined)]) world0
  = Resources.Files_list client3 net_ok JS.stringify "docs" None world0.
Proof.
  apply (files_list_undefined_filters client3 net_ok JS.stringify "docs"
           [("limit", Http.QUndefined); ("cursor", Http.QUndefined)]).
  reflexivity.
Defined.
(** *** The query cannot be broken by its values *)

Lemma count_char_app (c : ascii) (a b : string) :
  count_char c (a ++ b) = (count_char c a + count_char c b)%nat.
Proof.
  induction a as [| x a IH]; [reflexivity |].
  cbn. destruct (Ascii.eqb x c); rewrite IH; reflexivity.
Qed.

Lemma count_char_safe (c : ascii) (s : string) :
  is_query_safe c = false -> all_chars is_query_safe s = true ->
  count_char c s = 0%nat.
Proof.
  intros Hc. induction s as [| x s IH]; [reflexivity |].
  cbn. intros H. apply andb_true_iff in H as [Hx Hs].
  destruct (Ascii.eqb_spec x c) as [-> | _]; [congruence | exact (IH Hs)].
Qed.

Lemma count_char_urlencode (c : ascii) (s : string) :
  is_query_safe c = false -> count_char c (urlencode s) = 0%nat.
Proof.
  intros Hc. apply count_char_safe; [exact Hc | apply urlencode_is_query_safe].
Qed.

Lemma count_char_serialize (c : ascii) (params : list (string * string)) :
  is_query_safe c = false ->
  count_char c (serialize_params params)
  = ((if Ascii.eqb "=" c then List.length params else 0)
     + (if Ascii.eqb "&" c then pred (List.length params) else 0))%nat.
Proof.
  intros Hc. unfold serialize_params.
  induction params as [| [k v] params IH].
  - destruct (Ascii.eqb "=" c), (Ascii.eqb "&" c); reflexivity.
  - assert (Hitem : count_char c (urlencode k ++ "=" ++ urlencode v)
                    = if Ascii.eqb "=" c then 1%nat else 0%nat).
    { rewrite !count_char_app, !count_char_urlencode by exact Hc.
      cbn [count_char]. destruct (Ascii.eqb "=" c); reflexivity. }
    destruct params as [| p params'].
    + cbn [map Str.join fst snd List.length pred]. rewrite Hitem.
      destruct (Ascii.eqb "=" c), (Ascii.eqb "&" c); reflexivity.
    + change (Str.join "&" (map _ ((k, v) :: p :: params')))
        with ((urlencode k ++ "=" ++ urlencode v) ++ "&"
              ++ Str.join "&"
                   (map (fun kv => (urlencode (fst kv) ++ "="
                                    ++ urlencode (snd kv))%string)
                        (p :: params')))%string.
      rewrite count_char_app, Hitem, count_char_app, IH.
      cbn [count_char List.length pred].
      destruct (Ascii.eqb "=" c), (Ascii.eqb "&" c); lia.
Qed.

(** The query that [buildURL] adds cannot be broken by a key or a value:
    it holds one [=] per defined entry and one [&] between two entries,
    and no [?], [#] or space, whatever the keys and the values are. *)
Theorem buildURL_query_is_escaped (this : Http.HttpClient) (path : string)
    (entries : list (string * Http.qvalue)) (url : string)
    (Hurl : Http.buildURL this path None = Some url)
    (Hdefined : defined_entries entries <> []) :
  exists q,
    Http.buildURL this path (Some entries) = Some (url ++ "?" ++ q)%string /\
    count_char "=" q = List.length (defined_entries entries) /\
    count_char "&" q = pred (List.length (defined_entries entries)) /\
    count_char "?" q = 0%nat /\ count_char "#" q = 0%nat /\
    count_char " " q = 0%nat.
Proof.
  rewrite buildURL_with_query, Hurl. cbn [option_map].
  destruct (defined_entries entries) as [| d ds] eqn:Ed; [contradiction |].
  eexists. split; [reflexivity |].
  rewrite !count_char_serialize by reflexivity.
  rewrite length_map. cbn. repeat split; lia.
Qed.

Lemma buildURL_query_is_escaped_witness :
  exists q,
    Http.buildURL client3 "/search" (Some query_tricky)
      = Some ("https://x.example.com/search" ++ "?" ++ q)%string /\
    count_char "=" q = 2%nat /\ count_char "&" q = 1%nat /\
    count_char "?" q = 0%nat /\ count_char "#" q = 0%nat /\
    count_char " " q = 0%nat.
Proof.
  apply (buildURL_query_is_escaped client3 "/search" query_tricky
           "https://x.example.com/search").
  - reflexivity.
  - discriminate.
Defined.
